(** * Racing-weather derivation pipeline (lib/weatherCalc)

    A shallow embedding of the numeric core of the dashboard:
    [pdValueInHg], [dewPointFFromVaporPressure], [humidityGrains], [fToK],
    [adrPercent], [densityAltitudeFt], [standardCorrection] and
    [computeRacingWeather].

    The source computes on JavaScript numbers.  They are modelled by
    [number]: a finite value is an exact real (no rounding, no overflow,
    one unsigned zero that divides like [+0]), and the three special
    values of IEEE 754 arithmetic are kept, with the rules the language
    gives them, so that a division by zero or a fractional power of a
    negative base is visible in the result.

    What the rounding of binary64 arithmetic changes is shown on two
    further embeddings: [Binary64], the polynomial and the humidity
    quotients on the primitive floats, where values are computed, and
    [Rounded], the polynomial on reals with a rounding function, where
    error bounds are proved.  The statements about [number] that carry a
    tolerance, a gap between two inputs or a bound on the inputs are the
    ones that rounding and overflow leave true.

    The live endpoint (reading the vendor payload, the handler) and the
    helpers of the dashboard page (history, stale indicator, age label,
    CSV cells) follow. *)

From Stdlib Require Import Reals Lra Lia ZArith Bool Psatz.
From Stdlib Require Import List String Ascii.
From Stdlib Require Import Floats.
Import ListNotations.
From Equations Require Import Equations.

Open Scope R_scope.

(** Decimal literals of binary64 numbers stand for the nearest value, as
    in the source. *)
Set Warnings "-inexact-float".

(** ** JavaScript numbers *)

Inductive number : Type :=
| Fin (r : R)
| PInf
| NInf
| NaN.

(** The sign of a real: [Lt] negative, [Eq] zero, [Gt] positive. *)
Definition Rsign (r : R) : comparison :=
  match total_order_T r 0 with
  | inleft (left _) => Lt
  | inleft (right _) => Eq
  | inright _ => Gt
  end.

(** The infinity of a given sign; a zero sign is the invalid operation. *)
Definition inf_of_sign (c : comparison) : number :=
  match c with
  | Lt => NInf
  | Eq => NaN
  | Gt => PInf
  end.

Definition is_finite (a : number) : bool :=
  match a with
  | Fin _ => true
  | _ => false
  end.

Definition nneg (a : number) : number :=
  match a with
  | Fin r => Fin (- r)
  | PInf => NInf
  | NInf => PInf
  | NaN => NaN
  end.

(** Sum: opposite infinities cancel to NaN. *)
Definition nadd (a b : number) : number :=
  match a, b with
  | NaN, _ | _, NaN => NaN
  | Fin x, Fin y => Fin (x + y)
  | PInf, NInf | NInf, PInf => NaN
  | PInf, _ | _, PInf => PInf
  | NInf, _ | _, NInf => NInf
  end.

Definition nsub (a b : number) : number := nadd a (nneg b).

(** Product: zero times an infinity is NaN. *)
Definition nmul (a b : number) : number :=
  match a, b with
  | NaN, _ | _, NaN => NaN
  | Fin x, Fin y => Fin (x * y)
  | Fin x, PInf | PInf, Fin x => inf_of_sign (Rsign x)
  | Fin x, NInf | NInf, Fin x => inf_of_sign (CompOpp (Rsign x))
  | PInf, PInf | NInf, NInf => PInf
  | PInf, NInf | NInf, PInf => NInf
  end.

(** Quotient.  A finite value over zero is the infinity of the sign of
    the numerator (the zero divisors of the calculations are differences
    [P - P], that is [+0]), and zero over zero is NaN. *)
Definition ndiv (a b : number) : number :=
  match a, b with
  | NaN, _ | _, NaN => NaN
  | Fin x, Fin y =>
      if Req_dec_T y 0 then inf_of_sign (Rsign x) else Fin (x / y)
  | Fin _, (PInf | NInf) => Fin 0
  | PInf, Fin y => if Rlt_dec y 0 then NInf else PInf
  | NInf, Fin y => if Rlt_dec y 0 then PInf else NInf
  | (PInf | NInf), (PInf | NInf) => NaN
  end.

(** The comparison [a > b]: false as soon as one side is [NaN]. *)
Definition ngt (a b : number) : bool :=
  match a, b with
  | NaN, _ | _, NaN => false
  | Fin x, Fin y => if Rgt_dec x y then true else false
  | PInf, (Fin _ | NInf) => true
  | Fin _, NInf => true
  | _, _ => false
  end.

(** Whether a real is an integer. *)
Definition is_integer (y : R) : bool :=
  if Req_dec_T (IZR (Int_part y)) y then true else false.

(** [Math.pow] with the case table of the language's exponentiation. *)
Definition npow (base exponent : number) : number :=
  match exponent with
  | NaN => NaN
  | Fin y =>
      if Req_dec_T y 0 then Fin 1
      else
        match base with
        | NaN => NaN
        | PInf => if Rlt_dec 0 y then PInf else Fin 0
        | NInf =>
            if Rlt_dec 0 y
            then if is_integer y && Z.odd (Int_part y) then NInf else PInf
            else Fin 0
        | Fin x =>
            match Rsign x with
            | Gt => Fin (Rpower x y)
            | Eq => if Rlt_dec 0 y then Fin 0 else PInf
            | Lt => if is_integer y then Fin (powerRZ x (Int_part y)) else NaN
            end
        end
  | PInf =>
      match base with
      | NaN => NaN
      | PInf | NInf => PInf
      | Fin x =>
          match Rsign (Rabs x - 1) with
          | Gt => PInf
          | Eq => NaN
          | Lt => Fin 0
          end
      end
  | NInf =>
      match base with
      | NaN => NaN
      | PInf | NInf => Fin 0
      | Fin x =>
          match Rsign (Rabs x - 1) with
          | Gt => Fin 0
          | Eq => NaN
          | Lt => PInf
          end
      end
  end.

Declare Scope number_scope.
Delimit Scope number_scope with num.
Bind Scope number_scope with number.
Infix "+" := nadd : number_scope.
Infix "-" := nsub : number_scope.
Infix "*" := nmul : number_scope.
Infix "/" := ndiv : number_scope.
Infix ">?" := ngt (at level 70, no associativity) : number_scope.

(** ** The calculations *)

Module Inputs.
Record t : Type := mk {
  tempF : number;
  humidityPct : number;
  absPressureInHg : number
}.
End Inputs.

Module RawOutput.
Record t : Type := mk {
  tempF : number;
  humidityPct : number;
  absPressureInHg : number;
  pdValue : number;
  vaporPressureInHg : number;
  dewPointF : number;
  humidityGrains : number;
  adrPct : number;
  densityAltFt : number;
  tf : number;
  hf : number;
  bf : number;
  correction : number
}.
End RawOutput.

(** PD polynomial. *)
Definition pdValueInHg (tempF : number) : number :=
  (Fin 0.000002923426 * npow tempF (Fin 3)
   - Fin 0.0002235652 * npow tempF (Fin 2)
   + Fin 0.01366344 * tempF
   - Fin 0.126149)%num.

(** Dew point by inversion.  The loop of the source,
    [for (let i = 0; i < 80; i++) { ... }], on its state [(i, lo, hi)];
    it returns the state in which the test [i < 80] fails.  [remaining]
    is the number of iterations still to run, the measure that decreases. *)
Definition remaining (i : Z) : nat := Z.to_nat (80 - i).

Arguments remaining : simpl never.

Equations? bisect_loop (eInHg : number) (i : Z) (lo hi : number)
  : Z * (number * number) by wf (remaining i) lt :=
  bisect_loop eInHg i lo hi with Z_lt_dec i 80 := {
    | left _ =>
        let mid := ((lo + hi) / Fin 2)%num in
        let pd := pdValueInHg mid in
        if (pd >? eInHg)%num
        then bisect_loop eInHg (i + 1) lo mid
        else bisect_loop eInHg (i + 1) mid hi
    | right _ => (i, (lo, hi)) }.
Proof. all: unfold remaining; lia. Qed.

Definition dewPointFFromVaporPressure (eInHg : number) : number :=
  let '(_, (lo, hi)) := bisect_loop eInHg 0 (Fin (-60)) (Fin 140) in
  ((lo + hi) / Fin 2)%num.

(** Humidity grains. *)
Definition humidityGrains (P e : number) : number :=
  let w := (Fin 0.62199 * (e / (P - e)))%num in
  (Fin 7000 * w)%num.

Definition fToK (f : number) : number :=
  ((f - Fin 32) * (Fin 5 / Fin 9) + Fin 273.15)%num.

(** ADR. *)
Definition P_STD : number := Fin 29.92.
Definition T_STD_F : number := Fin 60.

Definition adrPercent (tempF P e : number) : number :=
  let T := fToK tempF in
  let Tstd := fToK T_STD_F in
  (((P - e) / T) / (P_STD / Tstd) * Fin 100)%num.

(** Density altitude, with the two calibration constants. *)
Definition DA_A : number := Fin 0.9877786024779986.
Definition DA_B : number := Fin 15.819058349071335.

Definition densityAltitudeFt (adrPct : number) : number :=
  let ratio := (adrPct / Fin 100)%num in
  let T0 := Fin 288.15 in
  let L := Fin 0.0065 in
  let g := Fin 9.80665 in
  let R := Fin 287.058 in
  let exp := (g / (R * L) - Fin 1)%num in
  let h_m := ((T0 / L) * (Fin 1 - npow ratio (Fin 1 / exp)))%num in
  (DA_A * (h_m * Fin 3.28084) + DA_B)%num.

(** Standard correction. *)
Module Correction.
Record t : Type := mk {
  tf : number;
  hf : number;
  bf : number;
  correction : number
}.
End Correction.

Definition standardCorrection (tempF P e : number) : Correction.t :=
  let tf := npow ((Fin 459.7 + tempF) / Fin 519.7)%num (Fin 0.50317) in
  let hf := (P / (P - e))%num in
  let bf := (Fin 29.92 / P)%num in
  Correction.mk tf hf bf (tf * hf * bf)%num.

(** Main compute function. *)
Definition computeRacingWeather (x : Inputs.t) : RawOutput.t :=
  let '(Inputs.mk tempF humidityPct absPressureInHg) := x in
  let pdValue := pdValueInHg tempF in
  let vaporPressureInHg := (pdValue * (humidityPct / Fin 100))%num in
  let dewPointF := dewPointFFromVaporPressure vaporPressureInHg in
  let humidityGrainsVal := humidityGrains absPressureInHg vaporPressureInHg in
  let adrPct := adrPercent tempF absPressureInHg vaporPressureInHg in
  let densityAltFt := densityAltitudeFt adrPct in
  let '(Correction.mk tf hf bf correction) :=
    standardCorrection tempF absPressureInHg vaporPressureInHg in
  RawOutput.mk tempF humidityPct absPressureInHg
    pdValue vaporPressureInHg
    dewPointF humidityGrainsVal
    adrPct densityAltFt
    tf hf bf correction.

(** ** The polynomial and the humidity quotients on binary64 numbers

    The same expressions on IEEE 754 binary64 values, each operation
    rounded to nearest.  [Math.pow] is used by these functions with the
    exponents 2 and 3 only; it is taken as the rounded product: the
    correctly rounded square, and a cube that is exact when the cube is a
    binary64 number, infinite when it overflows, and within one unit in the
    last place of the correctly rounded cube otherwise. *)
Module Binary64.

Fixpoint pow (base : float) (exponent : nat) : float :=
  match exponent with
  | O => 1%float
  | S O => base
  | S n => (pow base n * base)%float
  end.

Definition pdValueInHg (tempF : float) : float :=
  (0.000002923426 * pow tempF 3
   - 0.0002235652 * pow tempF 2
   + 0.01366344 * tempF
   - 0.126149)%float.

(** [pdValue * (humidityPct / 100)], the vapor pressure of the bundle. *)
Definition vaporPressureInHg (tempF humidityPct : float) : float :=
  (pdValueInHg tempF * (humidityPct / 100))%float.

Definition humidityGrains (P e : float) : float :=
  let w := (0.62199 * (e / (P - e)))%float in
  (7000 * w)%float.

(** The humidity factor [P / (P - e)] of [standardCorrection]. *)
Definition hf (P e : float) : float := (P / (P - e))%float.

End Binary64.

(** ** The polynomial under a rounding function

    Between the two embeddings: the polynomial on reals, each operation and
    each decimal literal followed by a rounding [rnd], with [Math_pow] for
    [Math.pow] at a whole exponent.  With the rounding and the powers of
    binary64 arithmetic this is the function of the source as long as
    nothing overflows; with no rounding and exact powers it is the cubic. *)
Module Rounded.
Section Rounding.

Variable rnd : R -> R.
Variable Math_pow : R -> nat -> R.

Definition pdValueInHg (tempF : R) : R :=
  rnd (rnd (rnd (rnd (rnd 0.000002923426 * Math_pow tempF 3)
                 - rnd (rnd 0.0002235652 * Math_pow tempF 2))
            + rnd (rnd 0.01366344 * tempF))
       - rnd 0.126149).

End Rounding.
End Rounded.

(** The standard model of floating-point arithmetic, with room to spare: a
    real of magnitude at most 10^4 is rounded to within a relative 1e-15
    and an absolute 1e-30 (rounding to the nearest binary64 number is
    within a relative 2^-53, about 1.1e-16, and an absolute 2^-1075); and
    the squares and cubes of the reals of magnitude at most 1000 are
    computed to the same accuracy. *)
Definition standard_rounding (rnd : R -> R) : Prop :=
  forall x, Rabs x <= 10000 -> Rabs (rnd x - x) <= 1e-15 * Rabs x + 1e-30.

Definition standard_powers (Math_pow : R -> nat -> R) : Prop :=
  forall x n, (2 <= n <= 3)%nat -> Rabs x <= 1000 ->
    Rabs (Math_pow x n - x ^ n) <= 1e-15 * Rabs (x ^ n) + 1e-30.

(** ** Statements of the design, and the loop on real brackets *)

(** The documented cubic, on the reals. *)
Definition pd_poly (T : R) : R :=
  0.000002923426 * T ^ 3 - 0.0002235652 * T ^ 2 + 0.01366344 * T - 0.126149.

(** One iteration as the design describes it: halve the bracket, keeping
    the lower half when the polynomial at the midpoint exceeds the target
    and the upper half otherwise. *)
Definition bisect_step (e : number) (b : number * number) : number * number :=
  let (lo, hi) := b in
  let mid := ((lo + hi) / Fin 2)%num in
  if (pdValueInHg mid >? e)%num then (lo, mid) else (mid, hi).

(** The value returned after the loop. *)
Definition midpoint (b : number * number) : number :=
  let (lo, hi) := b in ((lo + hi) / Fin 2)%num.

(** The bracket the loop starts from. *)
Definition bracket0 : number * number := (Fin (-60), Fin 140).

(** A number is within [tol] of the real [v]. *)
Definition approx (a : number) (v tol : R) : Prop :=
  exists r, a = Fin r /\ Rabs (r - v) <= tol.



(** Every field of the bundle is a finite number. *)
Definition all_finite (o : RawOutput.t) : bool :=
  is_finite (RawOutput.tempF o)
  && is_finite (RawOutput.humidityPct o)
  && is_finite (RawOutput.absPressureInHg o)
  && is_finite (RawOutput.pdValue o)
  && is_finite (RawOutput.vaporPressureInHg o)
  && is_finite (RawOutput.dewPointF o)
  && is_finite (RawOutput.humidityGrains o)
  && is_finite (RawOutput.adrPct o)
  && is_finite (RawOutput.densityAltFt o)
  && is_finite (RawOutput.tf o)
  && is_finite (RawOutput.hf o)
  && is_finite (RawOutput.bf o)
  && is_finite (RawOutput.correction o).


(** A bracket with finite ends stays finite: the loop body on real
    brackets, and the bracket after [n] iterations from (-60, 140). *)
Definition stepR (e : number) (b : R * R) : R * R :=
  let (lo, hi) := b in
  let mid := (lo + hi) / 2 in
  if (Fin (pd_poly mid) >? e)%num then (lo, mid) else (mid, hi).

(** A real bracket as a pair of numbers. *)
Definition inj (b : R * R) : number * number := (Fin (fst b), Fin (snd b)).

Definition bisectR (e : number) (n : nat) : R * R :=
  Nat.iter n (stepR e) (-60, 140).

(** ** The live endpoint (api/live): rounding for display *)

(** [Math.floor] and [Math.round] (the nearest integer, a tie going
    towards +Infinity); infinities and NaN are returned as they are. *)
Definition nfloor (a : number) : number :=
  match a with
  | Fin x => Fin (IZR (Zfloor x))
  | _ => a
  end.

Definition nround (a : number) : number :=
  match a with
  | Fin x => Fin (IZR (Zfloor (x + / 2)))
  | _ => a
  end.

Definition roundTo (value decimals : number) : number :=
  let p := npow (Fin 10) decimals in
  (nround (value * p) / p)%num.

(** ** Further operations on numbers *)

(** The comparisons [a < b] and [a <= b], false as soon as one side is
    NaN, the truth value of a number and of a string, and the remainder
    [a % b], which has the sign of the dividend. *)
Definition nlt (a b : number) : bool := ngt b a.

Definition nle (a b : number) : bool :=
  match a, b with
  | NaN, _ | _, NaN => false
  | Fin x, Fin y => if Rle_dec x y then true else false
  | NInf, _ | _, PInf => true
  | _, _ => false
  end.

Definition truthy_number (a : number) : bool :=
  match a with
  | Fin x => if Req_dec_T x 0 then false else true
  | NaN => false
  | _ => true
  end.

Definition truthy_string (s : string) : bool :=
  match s with
  | EmptyString => false
  | _ => true
  end.

Definition Rtrunc (x : R) : Z := if Rlt_dec x 0 then Zceil x else Zfloor x.

Definition nmod (a b : number) : number :=
  match a, b with
  | Fin x, Fin y =>
      if Req_dec_T y 0 then NaN else Fin (x - y * IZR (Rtrunc (x / y)))
  | Fin x, (PInf | NInf) => Fin x
  | _, _ => NaN
  end.

(** ** The live endpoint: reading the vendor payload *)

(** A parsed JSON value.  An object lists its members, one per key;
    [undefined] is the [None] of [option json]. *)
Unset Elimination Schemes.
Inductive json : Type :=
| JNull
| JBool (b : bool)
| JNum (n : number)
| JStr (s : string)
| JArr (items : list json)
| JObj (members : list (string * json)).
Set Elimination Schemes.

Fixpoint lookup (key : string) (members : list (string * json)) : option json :=
  match members with
  | [] => None
  | (k, v) :: rest => if String.eqb k key then Some v else lookup key rest
  end.

(** [v?.[key]] for the member names of the payload ([sensors], [data],
    [temp], [hum], [bar_absolute], [abs_press], [uv_index], [ts]): only
    an object has such a member; [null], [undefined], numbers, booleans,
    strings and arrays give [undefined] (a string and an array have
    members of their own only under [length] and their indices). *)
Definition opt_get (v : option json) (key : string) : option json :=
  match v with
  | Some (JObj members) => lookup key members
  | _ => None
  end.

(** [v ?? d]. *)
Definition nullish_or (v : option json) (d : json) : json :=
  match v with
  | None | Some JNull => d
  | Some x => x
  end.

(** The values a [for ... of] loop runs over: the items of an array, the
    characters of a string; any other value is not iterable. *)
Definition iterate (v : json) : option (list json) :=
  match v with
  | JArr items => Some items
  | JStr s =>
      Some (map (fun c => JStr (String c EmptyString)) (list_ascii_of_string s))
  | _ => None
  end.

(** [typeof v === "number"], with the number. *)
Definition typeof_number (v : option json) : option number :=
  match v with
  | Some (JNum n) => Some n
  | _ => None
  end.

(** What a call can throw: an [Error] with its message, the TypeError of
    a loop over a value that is not iterable, or (from the request to the
    vendor only) some other value that has no [message]. *)
Inductive exn : Type :=
| Error (message : string)
| NotIterable
| Other.

Inductive outcome (A : Type) : Type :=
| Returned (a : A)
| Thrown (e : exn).

Arguments Returned {A} a.
Arguments Thrown {A} e.

(** [for (const x of items) body], the body acting on the local state. *)
Fixpoint for_of {S : Type} (items : list json) (body : json -> S -> outcome S)
  (st : S) : outcome S :=
  match items with
  | [] => Returned st
  | x :: rest =>
      match body x st with
      | Returned st' => for_of rest body st'
      | Thrown e => Thrown e
      end
  end.

Definition for_of_value {S : Type} (v : json) (body : json -> S -> outcome S)
  (st : S) : outcome S :=
  match iterate v with
  | Some items => for_of items body st
  | None => Thrown NotIterable
  end.

(** [for (const s of sensors) for (const rec of s?.data ?? []) body]. *)
Definition for_each_record {S : Type} (sensors : json)
  (body : json -> S -> outcome S) (st : S) : outcome S :=
  for_of_value sensors
    (fun s st =>
       for_of_value (nullish_or (opt_get (Some s) "data") (JArr [])) body st)
    st.

Module LiveInputs.
Record t : Type := mk {
  tempF : number;
  humidityPct : number;
  absPressureInHg : number;
  uvIndex : option number
}.
End LiveInputs.

Section ToNumber.

(** [Number(v)].  The text-to-number conversion of the language is left
    abstract.  An array is converted through its text, which throws when
    an item has no text.  An object converts to NaN, unless it has a
    member [toString] of its own: a member of a parsed payload is never
    callable, so that the object has no text and the conversion throws a
    TypeError with the engine's message. *)
Variable StringToNumber : string -> number.
Variable ArrayToNumber : list json -> outcome number.
Variable notPrimitiveMessage : string.

Definition ToNumber (v : option json) : outcome number :=
  match v with
  | None => Returned NaN
  | Some JNull => Returned (Fin 0)
  | Some (JBool true) => Returned (Fin 1)
  | Some (JBool false) => Returned (Fin 0)
  | Some (JNum n) => Returned n
  | Some (JStr s) => Returned (StringToNumber s)
  | Some (JArr items) => ArrayToNumber items
  | Some (JObj members) =>
      match lookup "toString" members with
      | Some _ => Thrown (Error notPrimitiveMessage)
      | None => Returned NaN
      end
  end.

(** [typeof v === "number" ? v : Number(v)]. *)
Definition number_of (v : option json) : outcome number :=
  match typeof_number v with
  | Some x => Returned x
  | None => ToNumber v
  end.

(** The inner loop of [firstNumberFromSensors]: the first record whose
    field converts to a finite number. *)
Fixpoint first_number_in (dataArr : list json) (field : string)
  : outcome (option number) :=
  match dataArr with
  | [] => Returned None
  | rec :: rest =>
      let v := opt_get (Some rec) field in
      match number_of v with
      | Thrown e => Thrown e
      | Returned n =>
          if is_finite n then Returned (Some n)
          else first_number_in rest field
      end
  end.

Fixpoint first_number_in_sensors (sensors : list json) (field : string)
  : outcome (option number) :=
  match sensors with
  | [] => Returned None
  | s :: rest =>
      match iterate (nullish_or (opt_get (Some s) "data") (JArr [])) with
      | None => Thrown NotIterable
      | Some dataArr =>
          match first_number_in dataArr field with
          | Thrown e => Thrown e
          | Returned (Some n) => Returned (Some n)
          | Returned None => first_number_in_sensors rest field
          end
      end
  end.

(** A record that the search passes over: its field converts, without
    throwing, to a number that is not finite. *)
Definition passed_over (field : string) (rec : json) : Prop :=
  exists m, number_of (opt_get (Some rec) field) = Returned m
            /\ is_finite m = false.

Definition firstNumberFromSensors (payload : json) (field : string)
  : outcome (option number) :=
  let sensors := nullish_or (opt_get (Some payload) "sensors") (JArr []) in
  match iterate sensors with
  | None => Thrown NotIterable
  | Some items => first_number_in_sensors items field
  end.

Definition outdoor_message : string :=
  "Outdoor sensor not reporting (temp/hum are missing or null). Turn on the outdoor ISS/transmitter to enable live racing calculations.".

Definition pressure_message : string :=
  "Could not find absolute pressure (bar_absolute/abs_press missing).".

(** The body of the first loop of [extractInputs], on [absPressureInHg]. *)
Definition pressure_step (rec : json) (absPressureInHg : option number)
  : option number :=
  let absPressureInHg :=
    match absPressureInHg, typeof_number (opt_get (Some rec) "bar_absolute") with
    | None, Some n => Some n
    | _, _ => absPressureInHg
    end in
  match absPressureInHg, typeof_number (opt_get (Some rec) "abs_press") with
  | None, Some n => Some n
  | _, _ => absPressureInHg
  end.

(** The body of the second loop, on [(tempF, humidityPct)]. *)
Definition outdoor_step (rec : json) (st : option number * option number)
  : option number * option number :=
  let (tempF, humidityPct) := st in
  let tempF :=
    match tempF, typeof_number (opt_get (Some rec) "temp") with
    | None, Some n => Some n
    | _, _ => tempF
    end in
  let humidityPct :=
    match humidityPct, typeof_number (opt_get (Some rec) "hum") with
    | None, Some n => Some n
    | _, _ => humidityPct
    end in
  (tempF, humidityPct).

Definition extractInputs (payload : json) : outcome LiveInputs.t :=
  let sensors := nullish_or (opt_get (Some payload) "sensors") (JArr []) in
  match for_each_record sensors
          (fun rec st => Returned (pressure_step rec st)) None with
  | Thrown e => Thrown e
  | Returned absPressureInHg =>
      match for_each_record sensors
              (fun rec st => Returned (outdoor_step rec st)) (None, None) with
      | Thrown e => Thrown e
      | Returned (tempF, humidityPct) =>
          match tempF, humidityPct with
          | Some tempF, Some humidityPct =>
              match absPressureInHg with
              | None => Thrown (Error pressure_message)
              | Some absPressureInHg =>
                  match firstNumberFromSensors payload "uv_index" with
                  | Thrown e => Thrown e
                  | Returned uvIndex =>
                      Returned (LiveInputs.mk tempF humidityPct
                                  absPressureInHg uvIndex)
                  end
              end
          | _, _ => Thrown (Error outdoor_message)
          end
      end
  end.

End ToNumber.

(** ** The live endpoint: the timestamp of a payload *)

Section BestTimestamp.

Variable StringToNumber : string -> number.
Variable ArrayToNumber : list json -> outcome number.
Variable notPrimitiveMessage : string.

(** [new Date(ms).toISOString()], which throws on a time out of the range
    of dates, and the time of the call, [new Date()] in milliseconds. *)
Variable Date_toISOString : number -> outcome string.
Variable nowMs : number.

(** The body of the loop of [extractBestTimestampIso], on [bestMs]. *)
Definition best_step (rec : json) (bestMs : option number)
  : outcome (option number) :=
  let ts := opt_get (Some rec) "ts" in
  match number_of StringToNumber ArrayToNumber notPrimitiveMessage ts with
  | Thrown e => Thrown e
  | Returned n =>
      if is_finite n && (n >? Fin 0)%num
      then
        let ms := if nlt n (Fin 10000000000) then (n * Fin 1000)%num else n in
        match bestMs with
        | None => Returned (Some ms)
        | Some best =>
            if (ms >? best)%num then Returned (Some ms) else Returned bestMs
        end
      else Returned bestMs
  end.

Definition extractBestTimestampIso (payload : json) : outcome string :=
  let sensors := nullish_or (opt_get (Some payload) "sensors") (JArr []) in
  match for_each_record sensors best_step None with
  | Thrown e => Thrown e
  | Returned bestMs =>
      match bestMs with
      | Some ms =>
          if truthy_number ms then Date_toISOString ms
          else Date_toISOString nowMs
      | None => Date_toISOString nowMs
      end
  end.

(** The time in milliseconds that a record contributes, if any: its [ts]
    when it converts to a finite positive number, read as seconds below
    10^10 and as milliseconds from there on.  The conversion can throw. *)
Definition record_ms (rec : json) : outcome (option R) :=
  let ts := opt_get (Some rec) "ts" in
  match number_of StringToNumber ArrayToNumber notPrimitiveMessage ts with
  | Thrown e => Thrown e
  | Returned (Fin x) =>
      Returned
        (if Rlt_dec 0 x
         then Some (if Rlt_dec x 10000000000 then x * 1000 else x)
         else None)
  | Returned _ => Returned None
  end.

(** The time of a record whose conversion returns, and the greatest time
    so far with the time of one more record. *)
Definition returned_ms (rec : json) : option R :=
  match record_ms rec with
  | Returned ms => ms
  | Thrown _ => None
  end.

Definition best_merge (ms : option R) (bestMs : option number)
  : option number :=
  match ms with
  | Some ms =>
      match bestMs with
      | None => Some (Fin ms)
      | Some best => if (Fin ms >? best)%num then Some (Fin ms) else bestMs
      end
  | None => bestMs
  end.

End BestTimestamp.

(** ** The live endpoint: the handler *)

Module Display.
Record t : Type := mk {
  ts : string;
  tempF : number;
  humidityPct : number;
  absPressureInHg : number;
  vaporPressureInHg : number;
  dewPointF : number;
  humidityGrains : number;
  adr : number;
  densityAltFt : number;
  correction : number;
  uvIndex : option number
}.
End Display.

(** The value handed to [NextResponse.json], with the status. *)
Inductive body : Type :=
| Success (inputs : LiveInputs.t) (display : Display.t)
| Failure (error : string).

Module Response.
Record t : Type := mk {
  status : Z;
  body : body
}.
End Response.

Section LiveEndpoint.

Variable StringToNumber : string -> number.
Variable ArrayToNumber : list json -> outcome number.
Variable notPrimitiveMessage : string.

(** [new Date().toISOString()] at the time of the call, the message the
    engine gives its not-iterable TypeError, and [Number(x.toFixed(4))]. *)
Variable nowIso : string.
Variable notIterableMessage : string.
Variable Number_toFixed4 : number -> number.

(** [err?.message ?? "Unknown error"]. *)
Definition error_message (err : exn) : string :=
  match err with
  | Error message => message
  | NotIterable => notIterableMessage
  | Other => "Unknown error"
  end.

(** The handler, given what [await fetchWeatherLinkCurrent()] produced. *)
Definition GET (fetched : outcome json) : Response.t :=
  match fetched with
  | Thrown err => Response.mk 500 (Failure (error_message err))
  | Returned payload =>
      match extractInputs StringToNumber ArrayToNumber notPrimitiveMessage
              payload with
      | Thrown err => Response.mk 500 (Failure (error_message err))
      | Returned inputs =>
          let raw :=
            computeRacingWeather
              (Inputs.mk (LiveInputs.tempF inputs)
                 (LiveInputs.humidityPct inputs)
                 (LiveInputs.absPressureInHg inputs)) in
          let display :=
            Display.mk nowIso
              (RawOutput.tempF raw)
              (RawOutput.humidityPct raw)
              (RawOutput.absPressureInHg raw)
              (roundTo (RawOutput.vaporPressureInHg raw) (Fin 3))
              (roundTo (RawOutput.dewPointF raw) (Fin 1))
              (roundTo (RawOutput.humidityGrains raw) (Fin 1))
              (roundTo (RawOutput.adrPct raw) (Fin 1))
              (nround (RawOutput.densityAltFt raw))
              (Number_toFixed4 (roundTo (RawOutput.correction raw) (Fin 4)))
              (LiveInputs.uvIndex inputs) in
          Response.mk 200 (Success inputs display)
      end
  end.

End LiveEndpoint.

(** Sample payloads: one record with an outdoor reading and a barometer
    value; the same off season, the outdoor fields [null]; and an outdoor
    reading without a pressure. *)
Definition payload_of_record (rec : json) : json :=
  JObj [("sensors"%string, JArr [JObj [("data"%string, JArr [rec])]])].

Definition sample_payload : json :=
  payload_of_record
    (JObj [("temp"%string, JNum (Fin 80)); ("hum"%string, JNum (Fin 50));
           ("bar_absolute"%string, JNum (Fin 28.9))]).

Definition sample_payload_off_season : json :=
  payload_of_record
    (JObj [("temp"%string, JNull); ("hum"%string, JNull);
           ("bar_absolute"%string, JNum (Fin 28.9))]).

Definition sample_payload_no_pressure : json :=
  payload_of_record
    (JObj [("temp"%string, JNum (Fin 80)); ("hum"%string, JNum (Fin 50))]).

(** A payload with two records, the first timed in seconds and the second
    in milliseconds. *)
Definition sample_payload_two_times : json :=
  JObj [("sensors"%string,
         JArr [JObj [("data"%string,
                      JArr [JObj [("ts"%string, JNum (Fin 1700000000))];
                            JObj [("ts"%string,
                                   JNum (Fin 1700000001000))]])]])].

(** A payload with two sensors: a barometer, and an outdoor station whose
    first record has no temperature and whose second record has the three
    readings. *)
Definition sample_payload_two_sensors : json :=
  JObj [("sensors"%string,
         JArr [JObj [("data"%string,
                      JArr [JObj [("bar_absolute"%string, JNum (Fin 28.9))]])];
               JObj [("data"%string,
                      JArr [JObj [("temp"%string, JNull);
                                  ("hum"%string, JNum (Fin 40))];
                            JObj [("temp"%string, JNum (Fin 80));
                                  ("hum"%string, JNum (Fin 50));
                                  ("uv_index"%string, JNum (Fin 3))]])]])].

(** Payloads for the UV index: four records in two sensors, without the
    member, with an object, with [null] and with 7; and one record whose
    member is an object with a member [toString]. *)
Definition sample_payload_uv : json :=
  JObj [("sensors"%string,
         JArr [JObj [("data"%string,
                      JArr [JObj [("temp"%string, JNum (Fin 80))];
                            JObj [("uv_index"%string,
                                   JObj [("a"%string, JNum (Fin 1))])]])];
               JObj [("data"%string,
                      JArr [JObj [("uv_index"%string, JNull)];
                            JObj [("uv_index"%string, JNum (Fin 7))]])]])].

Definition sample_payload_uv_object : json :=
  payload_of_record
    (JObj [("uv_index"%string, JObj [("toString"%string, JNum (Fin 1))])]).

(** A complete reading whose [uv_index] is an object with a member
    [toString]. *)
Definition sample_payload_uv_throws : json :=
  payload_of_record
    (JObj [("temp"%string, JNum (Fin 80)); ("hum"%string, JNum (Fin 50));
           ("bar_absolute"%string, JNum (Fin 28.9));
           ("uv_index"%string, JObj [("toString"%string, JNum (Fin 1))])]).

(** A record whose [ts] is an object with a member [toString]. *)
Definition sample_payload_ts_object : json :=
  payload_of_record
    (JObj [("ts"%string, JObj [("toString"%string, JNum (Fin 1))])]).

(** What the loops of [extractInputs] read, said without loops: the
    records of the payload in order (none when a loop would meet a value
    that is not iterable), the first record with a numeric member, and the
    first record with a numeric [bar_absolute] or [abs_press]. *)
Fixpoint all_records (sensors : list json) : option (list json) :=
  match sensors with
  | [] => Some []
  | s :: rest =>
      match iterate (nullish_or (opt_get (Some s) "data") (JArr [])),
            all_records rest with
      | Some dataArr, Some recs => Some (dataArr ++ recs)
      | _, _ => None
      end
  end.

Definition payload_records (payload : json) : option (list json) :=
  match iterate (nullish_or (opt_get (Some payload) "sensors") (JArr [])) with
  | Some sensors => all_records sensors
  | None => None
  end.

Fixpoint first_numeric (key : string) (recs : list json) : option number :=
  match recs with
  | [] => None
  | rec :: rest =>
      match typeof_number (opt_get (Some rec) key) with
      | Some n => Some n
      | None => first_numeric key rest
      end
  end.

Fixpoint first_pressure (recs : list json) : option number :=
  match recs with
  | [] => None
  | rec :: rest =>
      match typeof_number (opt_get (Some rec) "bar_absolute"),
            typeof_number (opt_get (Some rec) "abs_press") with
      | Some n, _ => Some n
      | None, Some n => Some n
      | None, None => first_pressure rest
      end
  end.

(** ** The dashboard page (app/page) *)

Module ApiResult.
Record t : Type := mk {
  inputs : LiveInputs.t;
  display : Display.t
}.
End ApiResult.

(** History: the updater passed to [setHistory] when a reading [ok]
    arrives.  It returns the next history and, when it saved one, the
    history handed to [saveHistoryToStorage]. *)
Definition HISTORY_MAX : nat := 2000.

Definition history_update (ok : ApiResult.t) (prev : list ApiResult.t)
  : list ApiResult.t * option (list ApiResult.t) :=
  let same :=
    match prev with
    | first :: _ =>
        String.eqb (Display.ts (ApiResult.display first))
          (Display.ts (ApiResult.display ok))
    | [] => false
    end in
  if same then (prev, None)
  else
    let next := firstn HISTORY_MAX (ok :: prev) in
    (next, Some next).

(** A reading with a given timestamp. *)
Definition sample_result (ts : string) : ApiResult.t :=
  ApiResult.mk
    (LiveInputs.mk (Fin 80) (Fin 50) (Fin 28.9) None)
    (Display.mk ts (Fin 80) (Fin 50) (Fin 28.9) (Fin 0.516) (Fin 59.7)
       (Fin 79.2) (Fin 93.9) (Fin 1810) (Fin 1.0448) None).

(** The stale indicator. *)
Inductive stale_state : Type := LIVE | STALE | OFFLINE.

Section Staleness.

(** [Date.parse], NaN on a text that is not a date. *)
Variable Date_parse : string -> number.

Definition parseTsToMs (ts : string) : option number :=
  let ms := Date_parse ts in
  if is_finite ms then Some ms else None.

(** [data?.display?.ts ?? history[0]?.display?.ts ?? null]. *)
Definition lastTs (data : option ApiResult.t) (history : list ApiResult.t)
  : option string :=
  match data with
  | Some d => Some (Display.ts (ApiResult.display d))
  | None =>
      match history with
      | first :: _ => Some (Display.ts (ApiResult.display first))
      | [] => None
      end
  end.

Definition lastMs (lastTs : option string) : option number :=
  match lastTs with
  | Some ts => if truthy_string ts then parseTsToMs ts else None
  | None => None
  end.

Definition ageSec (lastTs : option string) (nowMs : number) : number :=
  match lastMs lastTs with
  | Some ms =>
      if truthy_number ms then ((nowMs - ms) / Fin 1000)%num else PInf
  | None => PInf
  end.

Definition staleState (lastTs : option string) (nowMs : number)
  : stale_state :=
  let ageSec := ageSec lastTs nowMs in
  let no_ts :=
    match lastTs with
    | Some ts => negb (truthy_string ts)
    | None => true
    end in
  if no_ts || negb (is_finite ageSec) then OFFLINE
  else if nle ageSec (Fin 90) then LIVE
  else if nle ageSec (Fin 180) then STALE
  else OFFLINE.

End Staleness.

Section Formatting.

(** The text of a number, as a template literal or [String] gives it. *)
Variable String_of_number : number -> string.

(** The dash shown for a missing value (U+2014, three bytes). *)
Definition dash : string :=
  String "226" (String "128" (String "148" EmptyString)).

Definition formatAge (seconds : number) : string :=
  if negb (is_finite seconds) || nlt seconds (Fin 0) then dash
  else if nlt seconds (Fin 60)
  then (String_of_number (nround seconds) ++ "s")%string
  else
    let m := nfloor (seconds / Fin 60)%num in
    let s := nround (nmod seconds (Fin 60)) in
    (String_of_number m ++ "m " ++ String_of_number s ++ "s")%string.

(** CSV export.  A cell is [null] or [undefined], a text or a number. *)
Inductive cell : Type :=
| CNullish
| CText (s : string)
| CNumber (n : number).

Definition quote : ascii := "034".
Definition comma : ascii := ",".
Definition newline : ascii := "010".

(** The test of the regular expression: a quote, a comma or a newline
    occurs in the text. *)
Fixpoint needs_quoting (s : string) : bool :=
  match s with
  | EmptyString => false
  | String c rest =>
      Ascii.eqb c quote || Ascii.eqb c comma || Ascii.eqb c newline
      || needs_quoting rest
  end.

(** The replacement: every quote is written twice. *)
Fixpoint double_quotes (s : string) : string :=
  match s with
  | EmptyString => EmptyString
  | String c rest =>
      if Ascii.eqb c quote
      then String quote (String quote (double_quotes rest))
      else String c (double_quotes rest)
  end.

(** [String(value)]; it is not reached for [null] and [undefined]. *)
Definition String_of_cell (value : cell) : string :=
  match value with
  | CText s => s
  | CNumber n => String_of_number n
  | CNullish => EmptyString
  end.

Definition csvEscape (value : cell) : string :=
  match value with
  | CNullish => EmptyString
  | _ =>
      let s := String_of_cell value in
      if needs_quoting s
      then String quote (double_quotes s ++ String quote EmptyString)%string
      else s
  end.

End Formatting.

(** The timestamp of an entry of the history, and a history in which no
    two neighbours carry the same timestamp. *)
Definition ts_of (r : ApiResult.t) : string :=
  Display.ts (ApiResult.display r).

Fixpoint no_repeat (history : list ApiResult.t) : Prop :=
  match history with
  | [] => True
  | a :: rest =>
      match rest with
      | [] => True
      | b :: _ => ts_of a <> ts_of b
      end /\ no_repeat rest
  end.

(** * Properties *)

(** ** Arithmetic of finite numbers *)

Lemma Rsign_pos (x : R) : 0 < x -> Rsign x = Gt.
Proof.
  intros Hx; unfold Rsign.
  destruct (total_order_T x 0) as [[H | H] | H]; try reflexivity; lra.
Qed.



Lemma ndiv_Fin (x y : R) : y <> 0 -> ndiv (Fin x) (Fin y) = Fin (x / y).
Proof.
  intros Hy; simpl. destruct (Req_dec_T y 0); [contradiction | reflexivity].
Qed.


Lemma ngt_Fin_true (x y : R) : y < x -> ngt (Fin x) (Fin y) = true.
Proof.
  intros H; simpl. destruct (Rgt_dec x y); [reflexivity | lra].
Qed.

Lemma ngt_Fin_false (x y : R) : x <= y -> ngt (Fin x) (Fin y) = false.
Proof.
  intros H; simpl. destruct (Rgt_dec x y); [lra | reflexivity].
Qed.

Lemma ngt_Fin_inv (x y : R) : ngt (Fin x) (Fin y) = true -> y < x.
Proof.
  simpl. destruct (Rgt_dec x y); [lra | discriminate].
Qed.

Lemma ngt_Fin_inv_false (x y : R) : ngt (Fin x) (Fin y) = false -> x <= y.
Proof.
  simpl. destruct (Rgt_dec x y); [discriminate | lra].
Qed.

Lemma Int_part_IZR (z : Z) : Int_part (IZR z) = z.
Proof.
  symmetry; apply Int_part_spec; lra.
Qed.

Lemma is_integer_IZR (z : Z) : is_integer (IZR z) = true.
Proof.
  unfold is_integer. rewrite Int_part_IZR.
  destruct (Req_dec_T (IZR z) (IZR z)); [reflexivity | contradiction].
Qed.


(** [Math.pow] at a positive integer exponent is the iterated product. *)
Lemma npow_Fin_positive (t : R) (p : positive) :
  npow (Fin t) (Fin (IZR (Zpos p))) = Fin (t ^ Pos.to_nat p).
Proof.
  assert (Hp : 0 < IZR (Zpos p)) by (apply IZR_lt; lia).
  unfold npow.
  destruct (Req_dec_T (IZR (Z.pos p)) 0) as [E | _]; [lra |].
  unfold Rsign. destruct (total_order_T t 0) as [[Ht | Ht] | Ht].
  - rewrite is_integer_IZR, Int_part_IZR. reflexivity.
  - destruct (Rlt_dec 0 (IZR (Z.pos p))) as [_ | N]; [| contradiction].
    subst t. rewrite pow_i by lia. reflexivity.
  - f_equal. rewrite <- Rpower_pow by lra.
    f_equal. rewrite INR_IZR_INZ, positive_nat_Z. reflexivity.
Qed.

Lemma pdValueInHg_Fin (t : R) : pdValueInHg (Fin t) = Fin (pd_poly t).
Proof.
  unfold pdValueInHg.
  change (Fin 3) with (Fin (IZR (Zpos 3))).
  change (Fin 2) with (Fin (IZR (Zpos 2))).
  rewrite !npow_Fin_positive. reflexivity.
Qed.

(** ** The saturation polynomial *)

(** The difference quotient of the cubic is a positive definite form:
    its discriminant [b^2 - 3ac] is negative. *)
Lemma pd_poly_slope_pos (x y : R) :
  0 < 0.000002923426 * (x * x + x * y + y * y)
      - 0.0002235652 * (x + y) + 0.01366344.
Proof.
  pose proof (Rle_0_sqr (x - y)) as Hd.
  pose proof (Rle_0_sqr (3 * 0.000002923426 * (x + y) - 2 * 0.0002235652))
    as Hs.
  unfold Rsqr in Hd, Hs. lra.
Qed.

Lemma pd_poly_strict_mono (x y : R) : x < y -> pd_poly x < pd_poly y.
Proof.
  intros Hxy.
  assert (E : pd_poly y - pd_poly x =
              (y - x) * (0.000002923426 * (x * x + x * y + y * y)
                         - 0.0002235652 * (x + y) + 0.01366344))
    by (unfold pd_poly; ring).
  pose proof (pd_poly_slope_pos x y) as Hs.
  assert (0 < pd_poly y - pd_poly x); [| lra].
  rewrite E. apply Rmult_lt_0_compat; lra.
Qed.

Lemma pd_poly_mono (x y : R) : x <= y -> pd_poly x <= pd_poly y.
Proof.
  intros [H | H]; [left; now apply pd_poly_strict_mono | subst; lra].
Qed.

(** ** The bisection loop *)

Lemma pow2_pos (k : nat) : 0 < 2 ^ k.
Proof. apply pow_lt; lra. Qed.

Lemma halve_pow2 (k : nat) : 200 / 2 ^ S k = 200 / 2 ^ k / 2.
Proof.
  pose proof (pow2_pos k). simpl. field. lra.
Qed.

Section Bisection.

Variable e : number.

(** The loop started at counter [i <= 80] runs its body [80 - i] times and
    stops with the counter at 80. *)
Lemma bisect_loop_iter (n : nat) :
  forall (i : Z) (lo hi : number),
    (i <= 80)%Z -> remaining i = n ->
    bisect_loop e i lo hi = (80%Z, Nat.iter n (bisect_step e) (lo, hi)).
Proof.
  induction n as [| n IH]; intros i lo hi Hi Hn; unfold remaining in Hn;
    rewrite bisect_loop_equation_1; destruct (Z_lt_dec i 80) as [Hlt | Hge];
    try lia.
  - assert (i = 80%Z) by lia. subst i. reflexivity.
  - rewrite Nat.iter_succ_r.
    cbn [bisect_loop_unfold_clause_1 bisect_step]; cbv zeta.
    destruct (pdValueInHg ((lo + hi) / Fin 2)%num >? e)%num;
      apply IH; unfold remaining; lia.
Qed.

Lemma dewPointFFromVaporPressure_iter :
  dewPointFFromVaporPressure e =
  midpoint (Nat.iter 80 (bisect_step e) bracket0).
Proof.
  unfold dewPointFFromVaporPressure, bracket0.
  rewrite (bisect_loop_iter 80) by (unfold remaining; lia).
  unfold midpoint. destruct (Nat.iter 80 (bisect_step e) _). reflexivity.
Qed.

(** The run from counter 0 passes through the state reached after [k]
    iterations. *)
Lemma bisect_loop_split (k : nat) (lo hi : number) :
  (k <= 80)%nat ->
  bisect_loop e 0 lo hi
  = bisect_loop e (Z.of_nat k)
      (fst (Nat.iter k (bisect_step e) (lo, hi)))
      (snd (Nat.iter k (bisect_step e) (lo, hi))).
Proof.
  intros Hk.
  rewrite (bisect_loop_iter 80) by (unfold remaining; lia).
  rewrite (bisect_loop_iter (80 - k)) by (unfold remaining; lia).
  rewrite <- surjective_pairing, <- Nat.iter_add.
  replace (80 - k + k)%nat with 80%nat by lia. reflexivity.
Qed.

Lemma bisect_step_inj (b : R * R) :
  bisect_step e (inj b) = inj (stepR e b).
Proof.
  destruct b as [lo hi]. unfold bisect_step, stepR, inj; cbn [fst snd].
  change (Fin lo + Fin hi)%num with (Fin (lo + hi)).
  rewrite ndiv_Fin by lra. rewrite pdValueInHg_Fin.
  destruct (ngt _ e); reflexivity.
Qed.

Lemma iter_bisect_step_inj (n : nat) (b : R * R) :
  Nat.iter n (bisect_step e) (inj b) = inj (Nat.iter n (stepR e) b).
Proof.
  induction n as [| n IH]; [reflexivity |].
  rewrite !Nat.iter_succ, IH. apply bisect_step_inj.
Qed.

Lemma bisectR_succ (n : nat) :
  bisectR e (S n) = stepR e (bisectR e n).
Proof. reflexivity. Qed.

Lemma dewPointFFromVaporPressure_Fin :
  dewPointFFromVaporPressure e =
  Fin ((fst (bisectR e 80) + snd (bisectR e 80)) / 2).
Proof.
  rewrite dewPointFFromVaporPressure_iter.
  change bracket0 with (inj (-60, 140)).
  rewrite iter_bisect_step_inj. fold (bisectR e 80).
  unfold midpoint, inj.
  change (Fin ?a + Fin ?b)%num with (Fin (a + b)).
  apply ndiv_Fin. lra.
Qed.

(** The invariant rule of the loop: a property of the bracket that holds
    at the start and is kept by either branch holds after any number of
    iterations. *)
Lemma bisectR_invariant (P : nat -> R -> R -> Prop) :
  P 0%nat (-60) 140 ->
  (forall k lo hi, P k lo hi ->
     if (Fin (pd_poly ((lo + hi) / 2)) >? e)%num
     then P (S k) lo ((lo + hi) / 2)
     else P (S k) ((lo + hi) / 2) hi) ->
  forall n, P n (fst (bisectR e n)) (snd (bisectR e n)).
Proof.
  intros H0 Hstep. induction n as [| n IH]; [exact H0 |].
  rewrite bisectR_succ. destruct (bisectR e n) as [lo hi].
  specialize (Hstep n lo hi IH). unfold stepR.
  destruct (Fin (pd_poly ((lo + hi) / 2)) >? e)%num; exact Hstep.
Qed.

(** A target that every midpoint exceeds drives the bracket to its lower
    edge; a target that no midpoint exceeds drives it to its upper edge. *)
Lemma bisectR_low_edge (n : nat) :
  (forall m, -60 < m -> (Fin (pd_poly m) >? e)%num = true) ->
  bisectR e n = (-60, -60 + 200 / 2 ^ n).
Proof.
  intros Hgt.
  pose proof (bisectR_invariant
                (fun k lo hi => lo = -60 /\ hi = -60 + 200 / 2 ^ k)) as Inv.
  destruct (Inv ltac:(simpl; lra)) with (n := n) as [Hlo Hhi].
  - intros k lo hi [-> ->]. pose proof (pow2_pos k) as Hk.
    assert (Hpos : 0 < 200 / 2 ^ k) by (apply Rdiv_lt_0_compat; lra).
    rewrite Hgt by lra. rewrite halve_pow2. split; lra.
  - destruct (bisectR e n) as [lo hi]; simpl in *. now subst.
Qed.

Lemma bisectR_high_edge (n : nat) :
  (forall m, m < 140 -> (Fin (pd_poly m) >? e)%num = false) ->
  bisectR e n = (140 - 200 / 2 ^ n, 140).
Proof.
  intros Hle.
  pose proof (bisectR_invariant
                (fun k lo hi => lo = 140 - 200 / 2 ^ k /\ hi = 140)) as Inv.
  destruct (Inv ltac:(simpl; lra)) with (n := n) as [Hlo Hhi].
  - intros k lo hi [-> ->]. pose proof (pow2_pos k) as Hk.
    assert (Hpos : 0 < 200 / 2 ^ k) by (apply Rdiv_lt_0_compat; lra).
    rewrite Hle by lra. rewrite halve_pow2. split; lra.
  - destruct (bisectR e n) as [lo hi]; simpl in *. now subst.
Qed.

Lemma dewPoint_low_edge :
  (forall m, -60 < m -> (Fin (pd_poly m) >? e)%num = true) ->
  dewPointFFromVaporPressure e = Fin (-60 + 100 / 2 ^ 80).
Proof.
  intros H. rewrite dewPointFFromVaporPressure_Fin, (bisectR_low_edge 80 H).
  cbn [fst snd]. f_equal. field.
Qed.

Lemma dewPoint_high_edge :
  (forall m, m < 140 -> (Fin (pd_poly m) >? e)%num = false) ->
  dewPointFFromVaporPressure e = Fin (140 - 100 / 2 ^ 80).
Proof.
  intros H. rewrite dewPointFFromVaporPressure_Fin, (bisectR_high_edge 80 H).
  cbn [fst snd]. f_equal. field.
Qed.

Lemma bisectR_bounds (n : nat) :
  -60 <= fst (bisectR e n) <= snd (bisectR e n)
  /\ snd (bisectR e n) <= 140.
Proof.
  apply (bisectR_invariant (fun _ lo hi => -60 <= lo <= hi /\ hi <= 140)).
  - lra.
  - intros _ lo hi H. destruct (ngt _ e); lra.
Qed.

Lemma bisectR_width (n : nat) :
  snd (bisectR e n) - fst (bisectR e n) = 200 / 2 ^ n.
Proof.
  apply (bisectR_invariant (fun k lo hi => hi - lo = 200 / 2 ^ k)).
  - simpl. lra.
  - intros k lo hi H. rewrite halve_pow2. destruct (ngt _ e); lra.
Qed.

End Bisection.

Lemma edge_distance : 0 < 100 / 2 ^ 80 <= 200 / 2 ^ 80.
Proof.
  pose proof (pow2_pos 80) as H.
  assert (0 < / 2 ^ 80) by (apply Rinv_0_lt_compat; exact H).
  unfold Rdiv. nra.
Qed.

(** C1. The dew point is computed by bisection on the fixed bracket
    [-60, 140]: the loop runs its body exactly 80 times (it stops with the
    counter at 80), each time keeping the lower half of the bracket when
    pd(mid) > e and the upper half otherwise, and the result is the
    midpoint of the last bracket.  A target below pd(-60) or above pd(140)
    gives a value within 200/2^80 of that bracket edge. *)
Theorem dewPointFFromVaporPressure_bisection (e : R) :
  bisect_loop (Fin e) 0 (Fin (-60)) (Fin 140)
  = (80%Z, Nat.iter 80 (bisect_step (Fin e)) (Fin (-60), Fin 140))
  /\ dewPointFFromVaporPressure (Fin e)
     = midpoint (Nat.iter 80 (bisect_step (Fin e)) (Fin (-60), Fin 140))
  /\ ((pdValueInHg (Fin (-60)) >? Fin e)%num = true ->
      exists r, dewPointFFromVaporPressure (Fin e) = Fin r
                /\ Rabs (r - (-60)) <= 200 / 2 ^ 80)
  /\ ((Fin e >? pdValueInHg (Fin 140))%num = true ->
      exists r, dewPointFFromVaporPressure (Fin e) = Fin r
                /\ Rabs (r - 140) <= 200 / 2 ^ 80).
Proof.
  pose proof edge_distance as Hd.
  split; [| split; [| split]].
  - apply bisect_loop_iter; [lia | reflexivity].
  - apply dewPointFFromVaporPressure_iter.
  - rewrite pdValueInHg_Fin. intros He%ngt_Fin_inv.
    exists (-60 + 100 / 2 ^ 80). split.
    + apply dewPoint_low_edge. intros m Hm. apply ngt_Fin_true.
      pose proof (pd_poly_strict_mono (-60) m Hm). lra.
    + rewrite Rabs_pos_eq; lra.
  - rewrite pdValueInHg_Fin. intros He%ngt_Fin_inv.
    exists (140 - 100 / 2 ^ 80). split.
    + apply dewPoint_high_edge. intros m Hm. apply ngt_Fin_false.
      pose proof (pd_poly_strict_mono m 140 Hm). lra.
    + rewrite Rabs_left1; lra.
Qed.

Lemma dewPointFFromVaporPressure_bisection_witness :
  ((pdValueInHg (Fin (-60)) >? Fin (-3))%num = true
   /\ exists r, dewPointFFromVaporPressure (Fin (-3)) = Fin r
                /\ Rabs (r - (-60)) <= 200 / 2 ^ 80)
  /\ ((Fin 6 >? pdValueInHg (Fin 140))%num = true
      /\ exists r, dewPointFFromVaporPressure (Fin 6) = Fin r
                   /\ Rabs (r - 140) <= 200 / 2 ^ 80).
Proof.
  assert (Hlo : (pdValueInHg (Fin (-60)) >? Fin (-3))%num = true).
  { rewrite pdValueInHg_Fin. apply ngt_Fin_true. unfold pd_poly. lra. }
  assert (Hhi : (Fin 6 >? pdValueInHg (Fin 140))%num = true).
  { rewrite pdValueInHg_Fin. apply ngt_Fin_true. unfold pd_poly. lra. }
  split; (split; [assumption |]).
  - exact (proj1 (proj2 (proj2 (dewPointFFromVaporPressure_bisection (-3))))
             Hlo).
  - exact (proj2 (proj2 (proj2 (dewPointFFromVaporPressure_bisection 6)))
             Hhi).
Defined.

(** ** The polynomial under rounding *)

Lemma Rabs_bounds (a b : R) : Rabs a <= b -> - b <= a <= b.
Proof.
  intros H. pose proof (Rle_abs a). pose proof (Rle_abs (- a)) as H2.
  rewrite Rabs_Ropp in H2. lra.
Qed.

(** One rounded operation: an argument within [E] of a value of magnitude
    at most [B] is rounded to within [E + 1e-15 (B + E) + 1e-30] of it. *)
Lemma rnd_step (rnd : R -> R) (x x0 B E : R) :
  standard_rounding rnd ->
  Rabs x0 <= B -> Rabs (x - x0) <= E -> B + E <= 10000 ->
  Rabs (rnd x - x0) <= E + 1e-15 * (B + E) + 1e-30.
Proof.
  intros Hr H0 HE HB.
  assert (Hx : Rabs x <= B + E).
  { replace x with (x0 + (x - x0)) by ring.
    eapply Rle_trans; [apply Rabs_triang |]. lra. }
  pose proof (Hr x ltac:(lra)) as H.
  replace (rnd x - x0) with ((rnd x - x) + (x - x0)) by ring.
  eapply Rle_trans; [apply Rabs_triang |]. lra.
Qed.

Lemma prod_close (A a P p Ba Ea Bp Ep : R) :
  Rabs a <= Ba -> Rabs (A - a) <= Ea -> Rabs p <= Bp -> Rabs (P - p) <= Ep ->
  Rabs (A * P - a * p) <= (Ba + Ea) * Ep + Ea * Bp.
Proof.
  intros Ha HA Hp HP.
  assert (HAb : Rabs A <= Ba + Ea).
  { replace A with (a + (A - a)) by ring.
    eapply Rle_trans; [apply Rabs_triang |]. lra. }
  replace (A * P - a * p) with (A * (P - p) + (A - a) * p) by ring.
  eapply Rle_trans; [apply Rabs_triang |]. rewrite !Rabs_mult.
  pose proof (Rabs_pos A). pose proof (Rabs_pos (P - p)).
  pose proof (Rabs_pos (A - a)). pose proof (Rabs_pos p).
  apply Rplus_le_compat; apply Rmult_le_compat; lra.
Qed.

Lemma pow_bound (x b : R) (n : nat) : Rabs x <= b -> Rabs (x ^ n) <= b ^ n.
Proof.
  intros H. rewrite <- RPow_abs. apply pow_incr.
  split; [apply Rabs_pos | exact H].
Qed.

Section RoundedPolynomial.

Variable rnd : R -> R.
Variable Math_pow : R -> nat -> R.
Hypothesis rnd_spec : standard_rounding rnd.
Hypothesis pow_spec : standard_powers Math_pow.

Lemma rnd_literal (c B : R) :
  Rabs c <= B -> B <= 10000 -> Rabs (rnd c - c) <= 1e-15 * B + 1e-30.
Proof.
  intros Hc HB. pose proof (rnd_spec c ltac:(lra)). lra.
Qed.

(** The rounded polynomial is within 1e-10 of the cubic on
    [-1000, 1000]: the error of each of the eleven roundings is carried
    through the expression. *)
Lemma pdValueInHg_rounded_close (T : R) :
  Rabs T <= 1000 ->
  Rabs (Rounded.pdValueInHg rnd Math_pow T - pd_poly T) <= 1e-10.
Proof.
  intros HT. unfold Rounded.pdValueInHg, pd_poly.
  pose proof (pow_bound T 1000 3 HT) as H3.
  pose proof (pow_bound T 1000 2 HT) as H2.
  pose proof (pow_spec T 3%nat ltac:(lia) HT) as P3.
  pose proof (pow_spec T 2%nat ltac:(lia) HT) as P2.
  assert (P3' : Rabs (Math_pow T 3 - T ^ 3) <= 1.1e-6) by lra.
  assert (P2' : Rabs (Math_pow T 2 - T ^ 2) <= 1.1e-9) by lra.
  assert (Aa : Rabs 0.000002923426 <= 0.000003) by (rewrite Rabs_pos_eq; lra).
  assert (Ab : Rabs 0.0002235652 <= 0.0003) by (rewrite Rabs_pos_eq; lra).
  assert (Ac : Rabs 0.01366344 <= 0.02) by (rewrite Rabs_pos_eq; lra).
  assert (Ad : Rabs 0.126149 <= 0.2) by (rewrite Rabs_pos_eq; lra).
  pose proof (rnd_literal _ _ Aa ltac:(lra)) as Ra.
  pose proof (rnd_literal _ _ Ab ltac:(lra)) as Rb.
  pose proof (rnd_literal _ _ Ac ltac:(lra)) as Rc.
  pose proof (rnd_literal _ _ Ad ltac:(lra)) as Rd.
  pose proof (prod_close _ _ _ _ _ _ _ _ Aa Ra H3 P3') as M1.
  pose proof (prod_close _ _ _ _ _ _ _ _ Ab Rb H2 P2') as M2.
  assert (HTT : Rabs (T - T) <= 0) by (rewrite Rminus_diag, Rabs_R0; lra).
  pose proof (prod_close _ _ _ _ _ _ _ _ Ac Rc HT HTT) as M3.
  assert (B1 : Rabs (0.000002923426 * T ^ 3) <= 3000).
  { rewrite Rabs_mult. pose proof (Rabs_pos (T ^ 3)).
    rewrite (Rabs_pos_eq 0.000002923426) by lra. nra. }
  assert (B2 : Rabs (0.0002235652 * T ^ 2) <= 300).
  { rewrite Rabs_mult. pose proof (Rabs_pos (T ^ 2)).
    rewrite (Rabs_pos_eq 0.0002235652) by lra. nra. }
  assert (B3 : Rabs (0.01366344 * T) <= 20).
  { rewrite Rabs_mult. pose proof (Rabs_pos T).
    rewrite (Rabs_pos_eq 0.01366344) by lra. nra. }
  assert (M1' : Rabs (rnd 0.000002923426 * Math_pow T 3
                      - 0.000002923426 * T ^ 3) <= 1e-11) by lra.
  assert (M2' : Rabs (rnd 0.0002235652 * Math_pow T 2
                      - 0.0002235652 * T ^ 2) <= 1e-12) by lra.
  assert (M3' : Rabs (rnd 0.01366344 * T - 0.01366344 * T) <= 1e-13) by lra.
  pose proof (rnd_step rnd _ _ _ _ rnd_spec B1 M1' ltac:(lra)) as R1.
  pose proof (rnd_step rnd _ _ _ _ rnd_spec B2 M2' ltac:(lra)) as R2.
  pose proof (rnd_step rnd _ _ _ _ rnd_spec B3 M3' ltac:(lra)) as R3.
  apply Rabs_bounds in R1, R2, R3, Rd, B1, B2, B3.
  set (m1 := rnd (rnd 0.000002923426 * Math_pow T 3)) in *.
  set (m2 := rnd (rnd 0.0002235652 * Math_pow T 2)) in *.
  set (m3 := rnd (rnd 0.01366344 * T)) in *.
  set (d := rnd 0.126149) in *.
  set (x1 := 0.000002923426 * T ^ 3) in *.
  set (x2 := 0.0002235652 * T ^ 2) in *.
  set (x3 := 0.01366344 * T) in *.
  assert (S1 : Rabs (rnd (m1 - m2) - (x1 - x2)) <= 2.2e-11).
  { eapply Rle_trans;
      [apply (rnd_step rnd (m1 - m2) (x1 - x2) 3300 1.8e-11 rnd_spec) |];
      try apply Rabs_le; lra. }
  apply Rabs_bounds in S1.
  assert (S2 : Rabs (rnd (rnd (m1 - m2) + m3) - (x1 - x2 + x3)) <= 2.7e-11).
  { eapply Rle_trans;
      [apply (rnd_step rnd (rnd (m1 - m2) + m3) (x1 - x2 + x3) 3320 2.3e-11
                rnd_spec) |];
      try apply Rabs_le; lra. }
  apply Rabs_bounds in S2.
  eapply Rle_trans;
    [apply (rnd_step rnd (rnd (rnd (m1 - m2) + m3) - d)
              (x1 - x2 + x3 - 0.126149) 3321 2.8e-11 rnd_spec) |];
    try apply Rabs_le; lra.
Qed.

End RoundedPolynomial.

(** Exact arithmetic is an instance of the model. *)
Lemma standard_rounding_exact : standard_rounding (fun x => x).
Proof.
  intros x _. rewrite Rminus_diag, Rabs_R0. pose proof (Rabs_pos x). lra.
Qed.

Lemma standard_powers_exact : standard_powers pow.
Proof.
  intros x n _ _. rewrite Rminus_diag, Rabs_R0.
  pose proof (Rabs_pos (x ^ n)). lra.
Qed.

(** Counterexample to C2: on binary64 numbers the cube of 1e103 is
    beyond the largest finite value and the function returns Infinity
    there; at 1e200 the square overflows too and the function returns
    NaN.  Neither is the value of the cubic. *)
Lemma pdValueInHg_not_cubic_when_large :
  Binary64.pdValueInHg 1e103 = infinity
  /\ PrimFloat.is_nan (Binary64.pdValueInHg 1e200) = true.
Proof.
  split; vm_compute; reflexivity.
Qed.

(** C2, amended.  At a temperature of magnitude at most 1000 the
    saturation vapor pressure is the value at that temperature of the cubic
    0.000002923426 T^3 - 0.0002235652 T^2 + 0.01366344 T - 0.126149, with
    these four coefficients, to within 1e-9: the two are equal in exact
    arithmetic, and under any rounding of the standard model the rounded
    expression stays within 1e-9 of the cubic.  On binary64 numbers the
    value at 80 is 1.0329030320000003 and the value at 0 is the last
    coefficient. *)
Theorem pdValueInHg_cubic (rnd : R -> R) (Math_pow : R -> nat -> R)
  (tempF : R) :
  standard_rounding rnd -> standard_powers Math_pow ->
  Rabs tempF <= 1000 ->
  approx (pdValueInHg (Fin tempF))
    (0.000002923426 * tempF ^ 3 - 0.0002235652 * tempF ^ 2
     + 0.01366344 * tempF - 0.126149)
    0.000000001
  /\ Rabs (Rounded.pdValueInHg rnd Math_pow tempF
           - (0.000002923426 * tempF ^ 3 - 0.0002235652 * tempF ^ 2
              + 0.01366344 * tempF - 0.126149))
     <= 0.000000001
  /\ Binary64.pdValueInHg 80 = 1.0329030320000003%float
  /\ Binary64.pdValueInHg 0 = (-0.126149)%float.
Proof.
  intros Hr Hp HT. split; [| split; [| split; vm_compute; reflexivity]].
  - exists (pd_poly tempF). split; [apply pdValueInHg_Fin |].
    unfold pd_poly. rewrite Rminus_diag, Rabs_R0. lra.
  - pose proof (pdValueInHg_rounded_close rnd Math_pow Hr Hp tempF HT) as H.
    unfold pd_poly in H. lra.
Qed.

Lemma pdValueInHg_cubic_witness :
  (standard_rounding (fun x => x) /\ standard_powers pow
   /\ Rabs 80 <= 1000)
  /\ approx (pdValueInHg (Fin 80))
       (0.000002923426 * 80 ^ 3 - 0.0002235652 * 80 ^ 2
        + 0.01366344 * 80 - 0.126149)
       0.000000001
  /\ Rabs (Rounded.pdValueInHg (fun x => x) pow 80
           - (0.000002923426 * 80 ^ 3 - 0.0002235652 * 80 ^ 2
              + 0.01366344 * 80 - 0.126149))
     <= 0.000000001.
Proof.
  assert (H : Rabs 80 <= 1000) by (rewrite Rabs_pos_eq; lra).
  split; [repeat split;
          [exact standard_rounding_exact | exact standard_powers_exact
           | exact H] |].
  destruct (pdValueInHg_cubic (fun x => x) pow 80
              standard_rounding_exact standard_powers_exact H)
    as (H1 & H2 & _).
  split; [exact H1 | exact H2].
Defined.

(** Counterexample to C7: pd(80) is not approximately 0.525834, not even
    with a tolerance of one half. *)
Lemma pdValueInHg_80_not_0_525834 :
  ~ approx (pdValueInHg (Fin 80)) 0.525834 0.5.
Proof.
  intros [r [E H]]. rewrite pdValueInHg_Fin in E. injection E as <-.
  unfold pd_poly in H. rewrite Rabs_pos_eq in H; lra.
Qed.

(** C7, amended: the cubic at 80 is 1.032903032, that is pd(80) is
    approximately 1.032903. *)
Theorem pdValueInHg_80 :
  pdValueInHg (Fin 80) = Fin 1.032903032
  /\ approx (pdValueInHg (Fin 80)) 1.032903 0.000001.
Proof.
  assert (E : pdValueInHg (Fin 80) = Fin 1.032903032).
  { rewrite pdValueInHg_Fin. f_equal. unfold pd_poly. lra. }
  split; [exact E |].
  exists 1.032903032. split; [exact E |].
  rewrite Rabs_pos_eq; lra.
Qed.

(** Counterexample to C8, on binary64 numbers: at 40 and at the next
    number above it the function returns the same value; at 20 and at the
    next number above it the value falls (by more than the last place of
    the cube can change); at 1e200 and 1e201 it is NaN. *)
Lemma pdValueInHg_not_strictly_increasing_binary64 :
  ((40 <? 40.00000000000001)%float = true
   /\ (Binary64.pdValueInHg 40
       <? Binary64.pdValueInHg 40.00000000000001)%float = false)
  /\ ((20 <? 20.000000000000004)%float = true
      /\ (Binary64.pdValueInHg 20.000000000000004
          <? Binary64.pdValueInHg 20)%float = true)
  /\ ((1e200 <? 1e201)%float = true
      /\ (Binary64.pdValueInHg 1e200
          <? Binary64.pdValueInHg 1e201)%float = false).
Proof.
  repeat split; vm_compute; reflexivity.
Qed.

(** The difference quotient of the cubic is at least 0.0079 everywhere. *)
Lemma pd_poly_slope_ge (x y : R) :
  0.0079 <= 0.000002923426 * (x * x + x * y + y * y)
            - 0.0002235652 * (x + y) + 0.01366344.
Proof.
  pose proof (Rle_0_sqr (x - y)) as Hd.
  pose proof (Rle_0_sqr (3 * 0.000002923426 * (x + y) - 2 * 0.0002235652))
    as Hs.
  unfold Rsqr in Hd, Hs. lra.
Qed.

Lemma pd_poly_increase (x y : R) :
  x <= y -> pd_poly x + 0.0079 * (y - x) <= pd_poly y.
Proof.
  intros Hxy.
  assert (E : pd_poly y - pd_poly x =
              (y - x) * (0.000002923426 * (x * x + x * y + y * y)
                         - 0.0002235652 * (x + y) + 0.01366344))
    by (unfold pd_poly; ring).
  pose proof (pd_poly_slope_ge x y) as Hs.
  assert (0.0079 * (y - x) <= pd_poly y - pd_poly x); [| lra].
  rewrite E, (Rmult_comm 0.0079). apply Rmult_le_compat_l; lra.
Qed.

(** C8, amended.  The cubic is strictly increasing on the whole real
    line (its derivative 3a T^2 - 2b T + c has a positive leading
    coefficient and a negative discriminant), with a slope of at least
    0.0079.  The function increases with it up to the rounding of binary64
    arithmetic: for two temperatures of [-1000, 1000] that are at least
    1e-6 apart, the value at the greater one is greater, by at least 0.007
    times their distance, in exact arithmetic and under any rounding of
    the standard model. *)
Theorem pdValueInHg_strictly_increasing (rnd : R -> R)
  (Math_pow : R -> nat -> R) (T1 T2 : R) :
  standard_rounding rnd -> standard_powers Math_pow ->
  -1000 <= T1 -> T2 <= 1000 -> T1 + 0.000001 <= T2 ->
  (exists v1 v2,
     pdValueInHg (Fin T1) = Fin v1 /\ pdValueInHg (Fin T2) = Fin v2
     /\ v1 + 0.007 * (T2 - T1) <= v2)
  /\ (pdValueInHg (Fin T2) >? pdValueInHg (Fin T1))%num = true
  /\ Rounded.pdValueInHg rnd Math_pow T1 + 0.007 * (T2 - T1)
     <= Rounded.pdValueInHg rnd Math_pow T2
  /\ (forall x y : R, x < y -> pd_poly x < pd_poly y).
Proof.
  intros Hr Hp H1 H2 H. rewrite !pdValueInHg_Fin.
  pose proof (pd_poly_increase T1 T2 ltac:(lra)) as Hi.
  split; [| split; [| split]].
  - exists (pd_poly T1), (pd_poly T2). repeat split. lra.
  - apply ngt_Fin_true. lra.
  - assert (A1 : Rabs T1 <= 1000) by (apply Rabs_le; lra).
    assert (A2 : Rabs T2 <= 1000) by (apply Rabs_le; lra).
    pose proof (pdValueInHg_rounded_close rnd Math_pow Hr Hp T1 A1) as C1.
    pose proof (pdValueInHg_rounded_close rnd Math_pow Hr Hp T2 A2) as C2.
    apply Rabs_bounds in C1, C2. lra.
  - exact pd_poly_strict_mono.
Qed.

Lemma pdValueInHg_strictly_increasing_witness :
  (standard_rounding (fun x => x) /\ standard_powers pow
   /\ -1000 <= 0 /\ 1 <= 1000 /\ 0 + 0.000001 <= 1)
  /\ (pdValueInHg (Fin 1) >? pdValueInHg (Fin 0))%num = true
  /\ Rounded.pdValueInHg (fun x => x) pow 0 + 0.007 * (1 - 0)
     <= Rounded.pdValueInHg (fun x => x) pow 1.
Proof.
  assert (H1 : -1000 <= 0) by lra.
  assert (H2 : 1 <= 1000) by lra.
  assert (H3 : 0 + 0.000001 <= 1) by lra.
  split; [repeat split;
          [exact standard_rounding_exact | exact standard_powers_exact
           | exact H1 | exact H2 | exact H3] |].
  destruct (pdValueInHg_strictly_increasing (fun x => x) pow 0 1
              standard_rounding_exact standard_powers_exact H1 H2 H3)
    as (_ & Ha & Hb & _).
  split; [exact Ha | exact Hb].
Defined.

(** ** Bounds and round trip of the inversion *)

(** The target pd(T) keeps T inside the bracket. *)
Lemma bisectR_encloses (T : R) (n : nat) :
  -60 < T < 140 ->
  fst (bisectR (Fin (pd_poly T)) n) <= T < snd (bisectR (Fin (pd_poly T)) n).
Proof.
  intros HT.
  apply (bisectR_invariant (Fin (pd_poly T)) (fun _ lo hi => lo <= T < hi)).
  - lra.
  - intros _ lo hi H.
    destruct (ngt _ _) eqn:E.
    + apply ngt_Fin_inv in E.
      destruct (Rlt_le_dec T ((lo + hi) / 2)) as [L | L]; [lra |].
      pose proof (pd_poly_mono _ _ L). lra.
    + apply ngt_Fin_inv_false in E.
      destruct (Rlt_le_dec T ((lo + hi) / 2)) as [L | L]; [| lra].
      pose proof (pd_poly_strict_mono _ _ L). lra.
Qed.

Lemma bisection_precision : 100 / 2 ^ 80 <= 0.000001.
Proof.
  pose proof (pow2_pos 80) as H.
  apply Rmult_le_reg_r with (r := 2 ^ 80); [exact H |].
  unfold Rdiv. rewrite Rmult_assoc, Rinv_l by lra. lra.
Qed.

Lemma bisection_resolution : 100 / 2 ^ 80 <= 0.000000001.
Proof.
  pose proof (pow2_pos 80) as H.
  apply Rmult_le_reg_r with (r := 2 ^ 80); [exact H |].
  unfold Rdiv. rewrite Rmult_assoc, Rinv_l by lra. lra.
Qed.

(** C3. Round trip: for a temperature strictly inside (-60, 140), the
    dew point of pd(T) is within 1e-6 of T. *)
Theorem dewPoint_pd_roundtrip (T : R) :
  -60 < T < 140 ->
  exists r, dewPointFFromVaporPressure (pdValueInHg (Fin T)) = Fin r
            /\ Rabs (r - T) <= 0.000001.
Proof.
  intros HT. rewrite pdValueInHg_Fin, dewPointFFromVaporPressure_Fin.
  eexists; split; [reflexivity |].
  pose proof (bisectR_encloses T 80 HT) as He.
  pose proof (bisectR_width (Fin (pd_poly T)) 80) as Hw.
  pose proof bisection_precision as Hp.
  apply Rabs_le. lra.
Qed.

Lemma dewPoint_pd_roundtrip_witness :
  -60 < 80 < 140
  /\ exists r, dewPointFFromVaporPressure (pdValueInHg (Fin 80)) = Fin r
               /\ Rabs (r - 80) <= 0.000001.
Proof.
  split; [lra |].
  apply (dewPoint_pd_roundtrip 80). lra.
Defined.

(** C9. Whatever the target (finite, infinite or NaN), the returned dew
    point is a finite number of [-60, 140], and the state the loop is in
    after each of its 80 iterations is a bracket with
    -60 <= lo <= hi <= 140. *)
Theorem dewPointFFromVaporPressure_bounded (e : number) :
  (exists r, dewPointFFromVaporPressure e = Fin r /\ -60 <= r <= 140)
  /\ (forall k : nat,
        (k <= 80)%nat ->
        exists lo hi,
          Nat.iter k (bisect_step e) (Fin (-60), Fin 140) = (Fin lo, Fin hi)
          /\ bisect_loop e 0 (Fin (-60)) (Fin 140)
             = bisect_loop e (Z.of_nat k) (Fin lo) (Fin hi)
          /\ -60 <= lo <= hi /\ hi <= 140).
Proof.
  split.
  - rewrite dewPointFFromVaporPressure_Fin.
    eexists; split; [reflexivity |].
    pose proof (bisectR_bounds e 80). lra.
  - intros k Hk.
    exists (fst (bisectR e k)), (snd (bisectR e k)).
    assert (E : Nat.iter k (bisect_step e) (Fin (-60), Fin 140)
                = (Fin (fst (bisectR e k)), Fin (snd (bisectR e k)))).
    { change (Fin (-60), Fin 140) with (inj (-60, 140)).
      rewrite iter_bisect_step_inj. reflexivity. }
    split; [exact E |]. split; [| apply bisectR_bounds].
    rewrite (bisect_loop_split e k) by exact Hk. rewrite E. reflexivity.
Qed.

Lemma dewPointFFromVaporPressure_bounded_witness :
  (80 <= 80)%nat
  /\ exists lo hi,
       Nat.iter 80 (bisect_step NaN) (Fin (-60), Fin 140) = (Fin lo, Fin hi)
       /\ bisect_loop NaN 0 (Fin (-60)) (Fin 140)
          = bisect_loop NaN (Z.of_nat 80) (Fin lo) (Fin hi)
       /\ -60 <= lo <= hi /\ hi <= 140.
Proof.
  split; [lia |].
  apply (proj2 (dewPointFFromVaporPressure_bounded NaN) 80%nat). lia.
Defined.

(** ** The pipeline *)

(** C10. The three input fields are carried into the output unchanged. *)
Theorem computeRacingWeather_echoes_inputs (x : Inputs.t) :
  RawOutput.tempF (computeRacingWeather x) = Inputs.tempF x
  /\ RawOutput.humidityPct (computeRacingWeather x) = Inputs.humidityPct x
  /\ RawOutput.absPressureInHg (computeRacingWeather x)
     = Inputs.absPressureInHg x.
Proof.
  destruct x as [t h p]. repeat split.
Qed.

(** The fields of the bundle, in terms of the step that computes each. *)
Lemma computeRacingWeather_fields (t h p : number) :
  let o := computeRacingWeather (Inputs.mk t h p) in
  let e := (pdValueInHg t * (h / Fin 100))%num in
  RawOutput.pdValue o = pdValueInHg t
  /\ RawOutput.vaporPressureInHg o = e
  /\ RawOutput.dewPointF o = dewPointFFromVaporPressure e
  /\ RawOutput.humidityGrains o = humidityGrains p e
  /\ RawOutput.adrPct o = adrPercent t p e
  /\ RawOutput.densityAltFt o = densityAltitudeFt (adrPercent t p e)
  /\ RawOutput.tf o = npow ((Fin 459.7 + t) / Fin 519.7)%num (Fin 0.50317)
  /\ RawOutput.hf o = (p / (p - e))%num
  /\ RawOutput.bf o = (Fin 29.92 / p)%num.
Proof.
  repeat split.
Qed.

Lemma vaporPressure_Fin (t h : R) :
  (pdValueInHg (Fin t) * (Fin h / Fin 100))%num = Fin (pd_poly t * (h / 100)).
Proof.
  rewrite pdValueInHg_Fin, ndiv_Fin by lra. reflexivity.
Qed.

Lemma humidityGrains_Fin (P e : R) :
  P - e <> 0 ->
  humidityGrains (Fin P) (Fin e) = Fin (7000 * (0.62199 * (e / (P - e)))).
Proof.
  intros H. unfold humidityGrains.
  change (Fin P - Fin e)%num with (Fin (P + - e)).
  rewrite ndiv_Fin by lra. reflexivity.
Qed.

Lemma hf_Fin (P e : R) :
  P - e <> 0 -> (Fin P / (Fin P - Fin e))%num = Fin (P / (P + - e)).
Proof.
  intros H. change (Fin P - Fin e)%num with (Fin (P + - e)).
  apply ndiv_Fin. lra.
Qed.

(** Two runs of the loop on ordered targets: the brackets coincide until
    the runs part, and from then on the bracket of the smaller target lies
    left of the other. *)
Lemma bisectR_monotone (e1 e2 : number) :
  (forall v, (Fin v >? e2)%num = true -> (Fin v >? e1)%num = true) ->
  forall n,
    bisectR e1 n = bisectR e2 n
    \/ snd (bisectR e1 n) <= fst (bisectR e2 n).
Proof.
  intros Hord. induction n as [| n IH]; [left; reflexivity |].
  rewrite !bisectR_succ.
  pose proof (bisectR_bounds e1 n) as B1.
  pose proof (bisectR_bounds e2 n) as B2.
  destruct IH as [E | L].
  - rewrite E. destruct (bisectR e2 n) as [lo hi]. unfold stepR.
    destruct (ngt _ e2) eqn:E2.
    + rewrite (Hord _ E2). now left.
    + destruct (ngt _ e1); [right; cbn [fst snd]; lra | now left].
  - right.
    destruct (bisectR e1 n) as [lo1 hi1], (bisectR e2 n) as [lo2 hi2].
    cbn [fst snd] in *. unfold stepR.
    destruct (ngt _ e1), (ngt _ e2); cbn [fst snd]; lra.
Qed.

Lemma dewPoint_monotone (a b : R) :
  a <= b ->
  exists d1 d2,
    dewPointFFromVaporPressure (Fin a) = Fin d1
    /\ dewPointFFromVaporPressure (Fin b) = Fin d2
    /\ d1 <= d2.
Proof.
  intros Hab. rewrite !dewPointFFromVaporPressure_Fin.
  do 2 eexists. split; [reflexivity | split; [reflexivity |]].
  pose proof (bisectR_bounds (Fin a) 80) as B1.
  pose proof (bisectR_bounds (Fin b) 80) as B2.
  destruct (bisectR_monotone (Fin a) (Fin b)) with (n := 80%nat) as [E | L].
  - intros v Hv%ngt_Fin_inv. apply ngt_Fin_true. lra.
  - rewrite E. lra.
  - lra.
Qed.


Lemma pd_poly_80 : pd_poly 80 = 1.032903032.
Proof. unfold pd_poly; lra. Qed.

Lemma pd_poly_140 : pd_poly 140 = 5.426735624.
Proof. unfold pd_poly; lra. Qed.





(** A target inside the range of the polynomial on the bracket stays
    between the values of the polynomial at the two ends of the bracket. *)
Lemma bisectR_brackets_target (e : R) (n : nat) :
  pd_poly (-60) <= e < pd_poly 140 ->
  pd_poly (fst (bisectR (Fin e) n)) <= e < pd_poly (snd (bisectR (Fin e) n)).
Proof.
  intros He.
  apply (bisectR_invariant (Fin e)
           (fun _ lo hi => pd_poly lo <= e < pd_poly hi)).
  - exact He.
  - intros _ lo hi H. destruct (ngt _ _) eqn:E.
    + apply ngt_Fin_inv in E. lra.
    + apply ngt_Fin_inv_false in E. lra.
Qed.







(** Boundary: at zero humidity, with a temperature of magnitude at most
    10^6 and a non-zero pressure, the vapor pressure and the humidity
    grains are 0 and the humidity factor is 1. *)
Theorem humidity_zero_boundary (tempF P : R) :
  Rabs tempF <= 1000000 ->
  P <> 0 ->
  let o := computeRacingWeather (Inputs.mk (Fin tempF) (Fin 0) (Fin P)) in
  RawOutput.vaporPressureInHg o = Fin 0
  /\ RawOutput.humidityGrains o = Fin 0
  /\ RawOutput.hf o = Fin 1.
Proof.
  intros _ HP o. subst o.
  destruct (computeRacingWeather_fields (Fin tempF) (Fin 0) (Fin P))
    as (_ & V & _ & G & _ & _ & _ & F & _).
  cbv zeta in *. rewrite V, G, F.
  assert (E : (pdValueInHg (Fin tempF) * (Fin 0 / Fin 100))%num = Fin 0).
  { rewrite vaporPressure_Fin. f_equal. lra. }
  rewrite E. rewrite humidityGrains_Fin, hf_Fin by lra.
  repeat split; f_equal; field; lra.
Qed.

Lemma humidity_zero_boundary_witness :
  let o := computeRacingWeather (Inputs.mk (Fin 80) (Fin 0) (Fin 28.9)) in
  Rabs 80 <= 1000000
  /\ 28.9 <> 0
  /\ RawOutput.vaporPressureInHg o = Fin 0
  /\ RawOutput.humidityGrains o = Fin 0
  /\ RawOutput.hf o = Fin 1.
Proof.
  assert (H0 : Rabs 80 <= 1000000) by (rewrite Rabs_pos_eq; lra).
  assert (H : 28.9 <> 0) by lra.
  split; [exact H0 |]. split; [exact H |].
  exact (humidity_zero_boundary 80 28.9 H0 H).
Defined.

(** ** Degenerate inputs *)








(** ** Finite and non-finite results *)

Lemma npow_Fin_pos_base (x y : R) :
  0 < x -> y <> 0 -> npow (Fin x) (Fin y) = Fin (Rpower x y).
Proof.
  intros Hx Hy. unfold npow.
  destruct (Req_dec_T y 0); [contradiction |].
  rewrite Rsign_pos by exact Hx. reflexivity.
Qed.



Lemma fToK_Fin (f : R) : fToK (Fin f) = Fin ((f - 32) * (5 / 9) + 273.15).
Proof.
  unfold fToK. rewrite ndiv_Fin by lra. reflexivity.
Qed.

Lemma adrPercent_Fin (t P e : R) :
  (t - 32) * (5 / 9) + 273.15 <> 0 ->
  adrPercent (Fin t) (Fin P) (Fin e)
  = Fin ((P - e) / ((t - 32) * (5 / 9) + 273.15)
         / (29.92 / ((60 - 32) * (5 / 9) + 273.15)) * 100).
Proof.
  intros HT. unfold adrPercent, P_STD, T_STD_F. rewrite !fToK_Fin.
  change (Fin P - Fin e)%num with (Fin (P - e)).
  rewrite !ndiv_Fin by lra. reflexivity.
Qed.

Lemma densityAltitudeFt_finite (a : R) :
  0 < a -> is_finite (densityAltitudeFt (Fin a)) = true.
Proof.
  intros Ha. unfold densityAltitudeFt, DA_A, DA_B. cbv zeta.
  change (Fin 287.058 * Fin 0.0065)%num with (Fin (287.058 * 0.0065)).
  rewrite (ndiv_Fin 9.80665) by lra.
  change (Fin ?x - Fin ?y)%num with (Fin (x - y)).
  rewrite !ndiv_Fin by lra.
  rewrite npow_Fin_pos_base by lra.
  reflexivity.
Qed.

Lemma tf_finite (t : R) :
  -459.7 < t ->
  is_finite (npow ((Fin 459.7 + Fin t) / Fin 519.7)%num (Fin 0.50317)) = true.
Proof.
  intros Ht. change (Fin 459.7 + Fin t)%num with (Fin (459.7 + t)).
  rewrite ndiv_Fin by lra. rewrite npow_Fin_pos_base by lra. reflexivity.
Qed.

(** Under the preconditions of the design (temperature above absolute
    zero, pressure positive and above the vapor pressure) every field of
    the bundle is finite. *)
Lemma computeRacingWeather_finite (t h P : R) :
  -459.67 < t -> 0 < P -> pd_poly t * (h / 100) < P ->
  all_finite (computeRacingWeather (Inputs.mk (Fin t) (Fin h) (Fin P))) = true.
Proof.
  intros Ht HP He.
  set (e := pd_poly t * (h / 100)) in *.
  assert (HT : 0 < (t - 32) * (5 / 9) + 273.15) by lra.
  assert (Hadr : 0 < (P - e) / ((t - 32) * (5 / 9) + 273.15)
                     / (29.92 / ((60 - 32) * (5 / 9) + 273.15)) * 100).
  { apply Rmult_lt_0_compat; [| lra].
    apply Rdiv_lt_0_compat; [| lra].
    apply Rdiv_lt_0_compat; lra. }
  unfold all_finite, computeRacingWeather. cbv zeta.
  cbn [standardCorrection RawOutput.tempF RawOutput.humidityPct
       RawOutput.absPressureInHg RawOutput.pdValue
       RawOutput.vaporPressureInHg RawOutput.dewPointF
       RawOutput.humidityGrains RawOutput.adrPct RawOutput.densityAltFt
       RawOutput.tf RawOutput.hf RawOutput.bf RawOutput.correction].
  rewrite vaporPressure_Fin. fold e.
  rewrite pdValueInHg_Fin, dewPointFFromVaporPressure_Fin.
  rewrite humidityGrains_Fin, adrPercent_Fin, hf_Fin by lra.
  rewrite densityAltitudeFt_finite by exact Hadr.
  change (Fin 459.7 + Fin t)%num with (Fin (459.7 + t)).
  rewrite !ndiv_Fin by lra. rewrite npow_Fin_pos_base by lra.
  reflexivity.
Qed.








(** ** Further properties of the calculations *)

Lemma pdValueInHg_gt_inv (x e : R) :
  (pdValueInHg (Fin x) >? Fin e)%num = true -> e < pd_poly x.
Proof. rewrite pdValueInHg_Fin. apply ngt_Fin_inv. Qed.

Lemma pdValueInHg_gt_inv_false (x e : R) :
  (pdValueInHg (Fin x) >? Fin e)%num = false -> pd_poly x <= e.
Proof. rewrite pdValueInHg_Fin. apply ngt_Fin_inv_false. Qed.

(** The inversion is correct for every target in range: when
    pd(-60) <= e < pd(140), the dew point r is a finite number of
    [-60, 140], the polynomial is at most e at r - 1e-9 and above e at
    r + 1e-9, and every temperature T with pd(T) = e is within 1e-9 of
    r. *)
Theorem dewPoint_inverts_pd (e : R) :
  (pdValueInHg (Fin (-60)) >? Fin e)%num = false ->
  (pdValueInHg (Fin 140) >? Fin e)%num = true ->
  exists r,
    dewPointFFromVaporPressure (Fin e) = Fin r
    /\ -60 <= r <= 140
    /\ (pdValueInHg (Fin (r - 0.000000001)) >? Fin e)%num = false
    /\ (pdValueInHg (Fin (r + 0.000000001)) >? Fin e)%num = true
    /\ (forall T, pdValueInHg (Fin T) = Fin e ->
                  Rabs (r - T) <= 0.000000001).
Proof.
  intros Hlo%pdValueInHg_gt_inv_false Hhi%pdValueInHg_gt_inv.
  rewrite dewPointFFromVaporPressure_Fin.
  eexists; split; [reflexivity |].
  pose proof (bisectR_bounds (Fin e) 80) as Hb.
  pose proof (bisectR_width (Fin e) 80) as Hw.
  pose proof (bisectR_brackets_target e 80 (conj Hlo Hhi)) as Ht.
  pose proof bisection_resolution as Hr.
  pose proof edge_distance as Hd.
  destruct (bisectR (Fin e) 80) as [lo hi]. cbn [fst snd] in *.
  rewrite !pdValueInHg_Fin.
  split; [lra |].
  split.
  { apply ngt_Fin_false.
    pose proof (pd_poly_mono ((lo + hi) / 2 - 0.000000001) lo ltac:(lra)).
    lra. }
  split.
  { apply ngt_Fin_true.
    pose proof (pd_poly_mono hi ((lo + hi) / 2 + 0.000000001) ltac:(lra)).
    lra. }
  intros T HT. rewrite pdValueInHg_Fin in HT. injection HT as HT.
  assert (lo <= T).
  { destruct (Rle_lt_dec lo T) as [L | L]; [exact L |].
    pose proof (pd_poly_strict_mono _ _ L). lra. }
  assert (T < hi).
  { destruct (Rlt_le_dec T hi) as [L | L]; [exact L |].
    pose proof (pd_poly_mono _ _ L). lra. }
  apply Rabs_le. lra.
Qed.

Lemma dewPoint_inverts_pd_witness :
  (pdValueInHg (Fin (-60)) >? Fin 0.5)%num = false
  /\ (pdValueInHg (Fin 140) >? Fin 0.5)%num = true
  /\ exists r,
       dewPointFFromVaporPressure (Fin 0.5) = Fin r
       /\ -60 <= r <= 140
       /\ (pdValueInHg (Fin (r - 0.000000001)) >? Fin 0.5)%num = false
       /\ (pdValueInHg (Fin (r + 0.000000001)) >? Fin 0.5)%num = true
       /\ (forall T, pdValueInHg (Fin T) = Fin 0.5 ->
                     Rabs (r - T) <= 0.000000001).
Proof.
  assert (Hlo : (pdValueInHg (Fin (-60)) >? Fin 0.5)%num = false).
  { rewrite pdValueInHg_Fin. apply ngt_Fin_false. unfold pd_poly. lra. }
  assert (Hhi : (pdValueInHg (Fin 140) >? Fin 0.5)%num = true).
  { rewrite pdValueInHg_Fin, pd_poly_140. apply ngt_Fin_true. lra. }
  split; [exact Hlo |]. split; [exact Hhi |].
  exact (dewPoint_inverts_pd 0.5 Hlo Hhi).
Defined.

Lemma dewPoint_of_pd_close (t : R) :
  -60 < t < 140 ->
  exists d, dewPointFFromVaporPressure (Fin (pd_poly t)) = Fin d
            /\ t - 100 / 2 ^ 80 <= d <= t + 100 / 2 ^ 80.
Proof.
  intros Ht. rewrite dewPointFFromVaporPressure_Fin.
  eexists; split; [reflexivity |].
  pose proof (bisectR_encloses t 80 Ht) as He.
  pose proof (bisectR_width (Fin (pd_poly t)) 80) as Hw.
  lra.
Qed.

(** The dew point does not exceed the air temperature: for a temperature
    strictly inside (-60, 140) at which the polynomial is not negative and
    a humidity between 0 and 100, the dew point of the bundle is at most
    the temperature plus 1e-6, whatever the pressure; at a humidity of
    100 it is within 1e-6 of the temperature. *)
Theorem dewPoint_at_most_temperature (t h : R) (P : number) :
  -60 < t < 140 ->
  (pdValueInHg (Fin t) >? Fin 0)%num = true ->
  0 <= h <= 100 ->
  exists d,
    RawOutput.dewPointF
      (computeRacingWeather (Inputs.mk (Fin t) (Fin h) P)) = Fin d
    /\ d <= t + 0.000001
    /\ (h = 100 -> Rabs (d - t) <= 0.000001).
Proof.
  intros Ht Hpd%pdValueInHg_gt_inv Hh.
  destruct (computeRacingWeather_fields (Fin t) (Fin h) P)
    as (_ & _ & -> & _).
  rewrite vaporPressure_Fin.
  destruct (dewPoint_of_pd_close t Ht) as (d' & Ed' & Hd').
  pose proof bisection_precision as Hp.
  assert (Hle : pd_poly t * (h / 100) <= pd_poly t) by nra.
  destruct (dewPoint_monotone _ _ Hle) as (d1 & d2 & E1 & E2 & H12).
  rewrite Ed' in E2. injection E2 as <-.
  exists d1. split; [exact E1 |]. split; [lra |].
  intros ->.
  replace (pd_poly t * (100 / 100)) with (pd_poly t) in E1 by lra.
  rewrite Ed' in E1. injection E1 as <-.
  apply Rabs_le. lra.
Qed.

Lemma dewPoint_at_most_temperature_witness :
  -60 < 80 < 140
  /\ (pdValueInHg (Fin 80) >? Fin 0)%num = true
  /\ 0 <= 50 <= 100
  /\ exists d,
       RawOutput.dewPointF
         (computeRacingWeather (Inputs.mk (Fin 80) (Fin 50) (Fin 28.9)))
       = Fin d
       /\ d <= 80 + 0.000001
       /\ (50 = 100 -> Rabs (d - 80) <= 0.000001).
Proof.
  assert (H1 : -60 < 80 < 140) by lra.
  assert (H2 : (pdValueInHg (Fin 80) >? Fin 0)%num = true).
  { rewrite pdValueInHg_Fin, pd_poly_80. apply ngt_Fin_true. lra. }
  assert (H3 : 0 <= 50 <= 100) by lra.
  split; [exact H1 |]. split; [exact H2 |]. split; [exact H3 |].
  exact (dewPoint_at_most_temperature 80 50 (Fin 28.9) H1 H2 H3).
Defined.

Lemma Rpower_pos (x y : R) : 0 < Rpower x y.
Proof. unfold Rpower. apply exp_pos. Qed.

Lemma Rpower_one_base (y : R) : Rpower 1 y = 1.
Proof. unfold Rpower. rewrite ln_1, Rmult_0_r. apply exp_0. Qed.

Lemma tf_Fin (t : R) :
  -459.7 < t ->
  npow ((Fin 459.7 + Fin t) / Fin 519.7)%num (Fin 0.50317)
  = Fin (Rpower ((459.7 + t) / 519.7) 0.50317).
Proof.
  intros Ht. change (Fin 459.7 + Fin t)%num with (Fin (459.7 + t)).
  rewrite ndiv_Fin by lra. apply npow_Fin_pos_base; lra.
Qed.

Lemma computeRacingWeather_correction (t h p : number) :
  let o := computeRacingWeather (Inputs.mk t h p) in
  RawOutput.correction o
  = (RawOutput.tf o * RawOutput.hf o * RawOutput.bf o)%num.
Proof. reflexivity. Qed.

(** The correction factor sees the pressure and the vapor pressure only
    through the dry-air pressure P - e: between -400 and 1000 degrees,
    with a humidity between 0 and 100 and a pressure between 1 and 100
    inHg that is more than 0.01 above the vapor pressure e, the
    temperature factor is a positive real tf and the correction is
    tf * 29.92 / (P - e) to within 1e-9. *)
Theorem correction_from_dry_pressure (t h P : R) :
  -400 <= t <= 1000 -> 0 <= h <= 100 -> 1 <= P <= 100 ->
  (Fin (P - 0.01)
   >? RawOutput.vaporPressureInHg
        (computeRacingWeather (Inputs.mk (Fin t) (Fin h) (Fin P))))%num
  = true ->
  let o := computeRacingWeather (Inputs.mk (Fin t) (Fin h) (Fin P)) in
  exists e tfv c,
    RawOutput.vaporPressureInHg o = Fin e
    /\ RawOutput.tf o = Fin tfv /\ 0 < tfv
    /\ RawOutput.correction o = Fin c
    /\ Rabs (c - tfv * (29.92 / (P - e))) <= 0.000000001.
Proof.
  intros Ht Hh HP He o. subst o. revert He.
  rewrite computeRacingWeather_correction.
  destruct (computeRacingWeather_fields (Fin t) (Fin h) (Fin P))
    as (_ & V & _ & _ & _ & _ & TF & F & B).
  cbv zeta in *. rewrite V, TF, F, B. rewrite vaporPressure_Fin.
  intros He%ngt_Fin_inv.
  set (e := pd_poly t * (h / 100)) in *.
  rewrite tf_Fin by lra. rewrite hf_Fin by lra.
  rewrite ndiv_Fin by lra.
  exists e, (Rpower ((459.7 + t) / 519.7) 0.50317). eexists.
  split; [reflexivity |]. split; [reflexivity |].
  split; [apply Rpower_pos |].
  split; [reflexivity |].
  match goal with
  | |- Rabs (?a - ?b) <= _ => replace a with b by (field; lra)
  end.
  rewrite Rminus_diag, Rabs_R0. lra.
Qed.

Lemma correction_from_dry_pressure_witness :
  let o := computeRacingWeather (Inputs.mk (Fin 80) (Fin 50) (Fin 28.9)) in
  (-400 <= 80 <= 1000 /\ 0 <= 50 <= 100 /\ 1 <= 28.9 <= 100
   /\ (Fin (28.9 - 0.01) >? RawOutput.vaporPressureInHg o)%num = true)
  /\ exists e tfv c,
       RawOutput.vaporPressureInHg o = Fin e
       /\ RawOutput.tf o = Fin tfv /\ 0 < tfv
       /\ RawOutput.correction o = Fin c
       /\ Rabs (c - tfv * (29.92 / (28.9 - e))) <= 0.000000001.
Proof.
  assert (H1 : -400 <= 80 <= 1000) by lra.
  assert (H2 : 0 <= 50 <= 100) by lra.
  assert (H3 : 1 <= 28.9 <= 100) by lra.
  assert (H4 : (Fin (28.9 - 0.01)
                >? RawOutput.vaporPressureInHg
                     (computeRacingWeather
                        (Inputs.mk (Fin 80) (Fin 50) (Fin 28.9))))%num = true).
  { destruct (computeRacingWeather_fields (Fin 80) (Fin 50) (Fin 28.9))
      as (_ & -> & _).
    rewrite vaporPressure_Fin, pd_poly_80. apply ngt_Fin_true; lra. }
  split; [repeat split; try lra; exact H4 |].
  exact (correction_from_dry_pressure 80 50 28.9 H1 H2 H3 H4).
Defined.

(** The real value of the density altitude at a positive ADR. *)
Lemma densityAltitudeFt_Fin (a : R) :
  0 < a ->
  densityAltitudeFt (Fin a)
  = Fin (0.9877786024779986
         * (288.15 / 0.0065
            * (1 - Rpower (a / 100)
                     (1 / (9.80665 / (287.058 * 0.0065) - 1)))
            * 3.28084)
         + 15.819058349071335).
Proof.
  intros Ha. unfold densityAltitudeFt, DA_A, DA_B. cbv zeta.
  change (Fin 287.058 * Fin 0.0065)%num with (Fin (287.058 * 0.0065)).
  rewrite (ndiv_Fin 9.80665) by lra.
  change (Fin ?x - Fin ?y)%num with (Fin (x - y)).
  rewrite !ndiv_Fin by lra.
  rewrite npow_Fin_pos_base by lra.
  reflexivity.
Qed.

Lemma densityAltitudeFt_lt (a b : R) :
  0 < a -> a < b ->
  exists x y,
    densityAltitudeFt (Fin a) = Fin x /\ densityAltitudeFt (Fin b) = Fin y
    /\ y < x.
Proof.
  intros Ha Hab. rewrite !densityAltitudeFt_Fin by lra.
  do 2 eexists. split; [reflexivity |]. split; [reflexivity |].
  assert (Hp : Rpower (a / 100) (1 / (9.80665 / (287.058 * 0.0065) - 1))
               < Rpower (b / 100) (1 / (9.80665 / (287.058 * 0.0065) - 1))).
  { apply Rlt_Rpower_l; lra. }
  nra.
Qed.

(** Denser air has a lower density altitude: of two ADR values between 1
    and 1000 that are at least 1e-9 apart, the greater has the strictly
    smaller density altitude; both are finite.  The density altitude is
    the calibration offset [DA_B] at an ADR of 100, above it below 100 and
    below it above 100. *)
Theorem densityAltitudeFt_decreasing (a b : R) :
  1 <= a -> a + 0.000000001 <= b -> b <= 1000 ->
  exists x y,
    densityAltitudeFt (Fin a) = Fin x /\ densityAltitudeFt (Fin b) = Fin y
    /\ y < x
    /\ (b <= 100 -> 15.819058349071335 < x)
    /\ (100 <= a -> y < 15.819058349071335)
    /\ densityAltitudeFt (Fin 100) = DA_B.
Proof.
  intros Ha Hab Hb.
  destruct (densityAltitudeFt_lt a b ltac:(lra) ltac:(lra))
    as (x & y & Ex & Ey & Hxy).
  exists x, y. split; [exact Ex |]. split; [exact Ey |].
  split; [exact Hxy |].
  assert (E100 : densityAltitudeFt (Fin 100) = Fin 15.819058349071335).
  { rewrite densityAltitudeFt_Fin by lra. f_equal.
    replace (100 / 100) with 1 by lra. rewrite Rpower_one_base. lra. }
  split; [| split; [| exact E100]].
  - intros Hb100.
    destruct (densityAltitudeFt_lt a 100 ltac:(lra) ltac:(lra))
      as (x' & y' & Ex' & Ey' & H').
    rewrite Ex in Ex'. injection Ex' as <-.
    rewrite E100 in Ey'. injection Ey' as <-. exact H'.
  - intros Ha100.
    destruct (densityAltitudeFt_lt 100 b ltac:(lra) ltac:(lra))
      as (x' & y' & Ex' & Ey' & H').
    rewrite Ey in Ey'. injection Ey' as <-.
    rewrite E100 in Ex'. injection Ex' as <-. exact H'.
Qed.

Lemma densityAltitudeFt_decreasing_witness :
  (1 <= 90 /\ 90 + 0.000000001 <= 100 /\ 100 <= 1000)
  /\ exists x y,
       densityAltitudeFt (Fin 90) = Fin x /\ densityAltitudeFt (Fin 100) = Fin y
       /\ y < x
       /\ (100 <= 100 -> 15.819058349071335 < x)
       /\ (100 <= 90 -> y < 15.819058349071335)
       /\ densityAltitudeFt (Fin 100) = DA_B.
Proof.
  assert (H1 : 1 <= 90) by lra.
  assert (H2 : 90 + 0.000000001 <= 100) by lra.
  assert (H3 : 100 <= 1000) by lra.
  split; [repeat split; assumption |].
  exact (densityAltitudeFt_decreasing 90 100 H1 H2 H3).
Defined.

(** Hotter air at the same pressures is thinner: between -400 and 1000
    degrees, with a vapor pressure of at least -1000 inHg and a pressure
    of at most 1000 inHg that is at least 0.001 above it, a temperature
    higher by 1e-6 degrees or more gives a strictly smaller positive ADR
    and a strictly greater density altitude. *)
Theorem adrPercent_decreasing_in_temperature (t1 t2 P e : R) :
  -400 <= t1 -> t1 + 0.000001 <= t2 -> t2 <= 1000 ->
  -1000 <= e -> e + 0.001 <= P -> P <= 1000 ->
  exists a1 a2 d1 d2,
    adrPercent (Fin t1) (Fin P) (Fin e) = Fin a1
    /\ adrPercent (Fin t2) (Fin P) (Fin e) = Fin a2
    /\ 0 < a2 < a1
    /\ densityAltitudeFt (Fin a1) = Fin d1
    /\ densityAltitudeFt (Fin a2) = Fin d2
    /\ d1 < d2.
Proof.
  intros H1 H12 _ _ HeP _.
  rewrite !adrPercent_Fin by lra.
  set (K1 := (t1 - 32) * (5 / 9) + 273.15).
  set (K2 := (t2 - 32) * (5 / 9) + 273.15).
  assert (HK1 : 0 < K1) by (subst K1; lra).
  assert (HK12 : K1 < K2) by (subst K1 K2; lra).
  set (c := 29.92 / ((60 - 32) * (5 / 9) + 273.15)).
  assert (Hc : 0 < c) by (subst c; lra).
  assert (Hq : (P - e) / K2 < (P - e) / K1).
  { unfold Rdiv. apply Rmult_lt_compat_l; [lra |].
    apply Rinv_lt_contravar; [apply Rmult_lt_0_compat |]; lra. }
  assert (Hq2 : 0 < (P - e) / K2) by (apply Rdiv_lt_0_compat; lra).
  assert (Ha2 : 0 < (P - e) / K2 / c * 100).
  { apply Rmult_lt_0_compat; [apply Rdiv_lt_0_compat |]; lra. }
  assert (Ha12 : (P - e) / K2 / c * 100 < (P - e) / K1 / c * 100).
  { apply Rmult_lt_compat_r; [lra |]. unfold Rdiv at 1 3.
    apply Rmult_lt_compat_r; [apply Rinv_0_lt_compat; lra | exact Hq]. }
  destruct (densityAltitudeFt_lt _ _ Ha2 Ha12)
    as (x & y & Ex & Ey & Hxy).
  exists ((P - e) / K1 / c * 100), ((P - e) / K2 / c * 100), y, x.
  repeat split; try reflexivity; try assumption.
Qed.

Lemma adrPercent_decreasing_in_temperature_witness :
  (-400 <= 60 /\ 60 + 0.000001 <= 80 /\ 80 <= 1000
   /\ -1000 <= 0.5 /\ 0.5 + 0.001 <= 28.9 /\ 28.9 <= 1000)
  /\ exists a1 a2 d1 d2,
       adrPercent (Fin 60) (Fin 28.9) (Fin 0.5) = Fin a1
       /\ adrPercent (Fin 80) (Fin 28.9) (Fin 0.5) = Fin a2
       /\ 0 < a2 < a1
       /\ densityAltitudeFt (Fin a1) = Fin d1
       /\ densityAltitudeFt (Fin a2) = Fin d2
       /\ d1 < d2.
Proof.
  assert (H1 : -400 <= 60) by lra.
  assert (H2 : 60 + 0.000001 <= 80) by lra.
  assert (H3 : 80 <= 1000) by lra.
  assert (H4 : -1000 <= 0.5) by lra.
  assert (H5 : 0.5 + 0.001 <= 28.9) by lra.
  assert (H6 : 28.9 <= 1000) by lra.
  split; [repeat split; assumption |].
  exact (adrPercent_decreasing_in_temperature 60 80 28.9 0.5
           H1 H2 H3 H4 H5 H6).
Defined.

(** Standard dry air is the fixed point of the calculations: at 60
    degrees, with a humidity between 0 and 100 and the pressure set to
    29.92 inHg plus the vapor pressure, the ADR is 100 to within 1e-9, the
    density altitude is the calibration offset [DA_B] to within 1e-6, the
    temperature factor is 1 to within 1e-12 and the correction is 1 to
    within 1e-9. *)
Theorem standard_dry_air (h : R) :
  0 <= h <= 100 ->
  let e := (pdValueInHg (Fin 60) * (Fin h / Fin 100))%num in
  let o := computeRacingWeather
             (Inputs.mk (Fin 60) (Fin h) (Fin 29.92 + e)%num) in
  approx (RawOutput.adrPct o) 100 0.000000001
  /\ approx (RawOutput.densityAltFt o) 15.819058349071335 0.000001
  /\ approx (RawOutput.tf o) 1 0.000000000001
  /\ approx (RawOutput.correction o) 1 0.000000001.
Proof.
  intros Hh. cbv zeta.
  rewrite computeRacingWeather_correction.
  destruct (computeRacingWeather_fields (Fin 60) (Fin h)
              (Fin 29.92 + pdValueInHg (Fin 60) * (Fin h / Fin 100))%num)
    as (_ & V & _ & _ & A & DA & TF & F & B).
  cbv zeta in *. rewrite A, DA, TF, F, B. clear V A DA TF F B.
  rewrite vaporPressure_Fin.
  set (e := pd_poly 60 * (h / 100)).
  assert (He : 0 <= e).
  { subst e. apply Rmult_le_pos; [unfold pd_poly |]; lra. }
  change (Fin 29.92 + Fin e)%num with (Fin (29.92 + e)).
  assert (EA : adrPercent (Fin 60) (Fin (29.92 + e)) (Fin e) = Fin 100).
  { rewrite adrPercent_Fin by lra. f_equal. field. lra. }
  assert (ET : npow ((Fin 459.7 + Fin 60) / Fin 519.7)%num (Fin 0.50317)
               = Fin 1).
  { rewrite tf_Fin by lra. f_equal.
    replace ((459.7 + 60) / 519.7) with 1 by lra. apply Rpower_one_base. }
  assert (ED : densityAltitudeFt (Fin 100) = Fin 15.819058349071335).
  { rewrite densityAltitudeFt_Fin by lra. f_equal.
    replace (100 / 100) with 1 by lra. rewrite Rpower_one_base. lra. }
  assert (EC : (Fin 1 * (Fin (29.92 + e) / (Fin (29.92 + e) - Fin e))
                * (Fin 29.92 / Fin (29.92 + e)))%num = Fin 1).
  { rewrite hf_Fin by lra. rewrite ndiv_Fin by lra.
    cbn [nmul]. f_equal. field. split; lra. }
  rewrite EA, ET, ED, EC.
  repeat split; eexists; (split; [reflexivity |]);
    rewrite Rminus_diag, Rabs_R0; lra.
Qed.

Lemma standard_dry_air_witness :
  let e := (pdValueInHg (Fin 60) * (Fin 50 / Fin 100))%num in
  let o := computeRacingWeather
             (Inputs.mk (Fin 60) (Fin 50) (Fin 29.92 + e)%num) in
  0 <= 50 <= 100
  /\ approx (RawOutput.adrPct o) 100 0.000000001
  /\ approx (RawOutput.densityAltFt o) 15.819058349071335 0.000001
  /\ approx (RawOutput.tf o) 1 0.000000000001
  /\ approx (RawOutput.correction o) 1 0.000000001.
Proof.
  assert (H : 0 <= 50 <= 100) by lra.
  split; [exact H |].
  exact (standard_dry_air 50 H).
Defined.

(** Inside the preconditions of the design every field of the bundle is
    finite and the ADR, the three factors and the correction are positive:
    for a temperature between -400 and 1000 degrees, a humidity of
    magnitude at most 1000 and a pressure between 0.001 and 1000 inHg that
    is more than 0.001 above the vapor pressure. *)
Theorem valid_inputs_finite_positive (t h P : R) :
  -400 <= t <= 1000 -> -1000 <= h <= 1000 -> 0.001 <= P <= 1000 ->
  (Fin (P - 0.001)
   >? RawOutput.vaporPressureInHg
        (computeRacingWeather (Inputs.mk (Fin t) (Fin h) (Fin P))))%num
  = true ->
  let o := computeRacingWeather (Inputs.mk (Fin t) (Fin h) (Fin P)) in
  all_finite o = true
  /\ (RawOutput.adrPct o >? Fin 0)%num = true
  /\ (RawOutput.tf o >? Fin 0)%num = true
  /\ (RawOutput.hf o >? Fin 0)%num = true
  /\ (RawOutput.bf o >? Fin 0)%num = true
  /\ (RawOutput.correction o >? Fin 0)%num = true.
Proof.
  intros Ht _ HP He o. subst o.
  rewrite computeRacingWeather_correction.
  destruct (computeRacingWeather_fields (Fin t) (Fin h) (Fin P))
    as (_ & V & _ & _ & A & _ & TF & F & B).
  cbv zeta in *. rewrite V in He. rewrite A, TF, F, B.
  rewrite vaporPressure_Fin in *. apply ngt_Fin_inv in He.
  split; [apply computeRacingWeather_finite; lra |].
  set (e := pd_poly t * (h / 100)) in *.
  rewrite adrPercent_Fin, tf_Fin, hf_Fin by lra.
  rewrite ndiv_Fin by lra. cbn [nmul].
  pose proof (Rpower_pos ((459.7 + t) / 519.7) 0.50317) as Htf.
  assert (Hhf : 0 < P / (P + - e)) by (apply Rdiv_lt_0_compat; lra).
  assert (Hbf : 0 < 29.92 / P) by (apply Rdiv_lt_0_compat; lra).
  repeat split; apply ngt_Fin_true; try assumption.
  - apply Rmult_lt_0_compat; [| lra].
    apply Rdiv_lt_0_compat; [| lra]. apply Rdiv_lt_0_compat; lra.
  - apply Rmult_lt_0_compat; [apply Rmult_lt_0_compat |]; assumption.
Qed.

Lemma valid_inputs_finite_positive_witness :
  let o := computeRacingWeather (Inputs.mk (Fin 80) (Fin 50) (Fin 28.9)) in
  (-400 <= 80 <= 1000 /\ -1000 <= 50 <= 1000 /\ 0.001 <= 28.9 <= 1000
   /\ (Fin (28.9 - 0.001) >? RawOutput.vaporPressureInHg o)%num = true)
  /\ all_finite o = true
  /\ (RawOutput.adrPct o >? Fin 0)%num = true
  /\ (RawOutput.tf o >? Fin 0)%num = true
  /\ (RawOutput.hf o >? Fin 0)%num = true
  /\ (RawOutput.bf o >? Fin 0)%num = true
  /\ (RawOutput.correction o >? Fin 0)%num = true.
Proof.
  assert (H1 : -400 <= 80 <= 1000) by lra.
  assert (H2 : -1000 <= 50 <= 1000) by lra.
  assert (H3 : 0.001 <= 28.9 <= 1000) by lra.
  assert (H4 : (Fin (28.9 - 0.001)
                >? RawOutput.vaporPressureInHg
                     (computeRacingWeather
                        (Inputs.mk (Fin 80) (Fin 50) (Fin 28.9))))%num = true).
  { destruct (computeRacingWeather_fields (Fin 80) (Fin 50) (Fin 28.9))
      as (_ & -> & _).
    rewrite vaporPressure_Fin, pd_poly_80. apply ngt_Fin_true; lra. }
  split; [repeat split; try lra; exact H4 |].
  exact (valid_inputs_finite_positive 80 50 28.9 H1 H2 H3 H4).
Defined.

(** ** Rounding *)

Lemma npow_10_nat (d : nat) : npow (Fin 10) (Fin (INR d)) = Fin (10 ^ d).
Proof.
  destruct d as [| d].
  - simpl. destruct (Req_dec_T 0 0); [reflexivity | contradiction].
  - rewrite INR_IZR_INZ.
    change (Z.of_nat (S d)) with (Z.pos (Pos.of_succ_nat d)).
    rewrite npow_Fin_positive, SuccNat2Pos.id_succ. reflexivity.
Qed.

Lemma pow10_pos (d : nat) : 0 < 10 ^ d.
Proof. apply pow_lt; lra. Qed.

Lemma roundTo_Fin (v : R) (d : nat) :
  roundTo (Fin v) (Fin (INR d))
  = Fin (IZR (Zfloor (v * 10 ^ d + / 2)) / 10 ^ d).
Proof.
  pose proof (pow10_pos d) as Hp.
  unfold roundTo. cbv zeta. rewrite npow_10_nat.
  cbn [nmul nround]. apply ndiv_Fin. lra.
Qed.

(** Rounding to [d] decimals, for a value of magnitude at most 10^6 and
    at most 4 decimals (the handler asks for 1, 3 and 4): the result is a
    whole number of units 10^-d, within 0.501 units of the value (half a
    unit, and the rounding of the product); rounding is monotone, leaves
    an already rounded value alone, and returns NaN and the infinities as
    they are. *)
Theorem roundTo_nearest (v : R) (d : nat) :
  Rabs v <= 1000000 -> (d <= 4)%nat ->
  exists k : Z,
    roundTo (Fin v) (Fin (INR d)) = Fin (IZR k / 10 ^ d)
    /\ Rabs (IZR k / 10 ^ d - v) <= 0.501 / 10 ^ d
    /\ roundTo (Fin (IZR k / 10 ^ d)) (Fin (INR d)) = Fin (IZR k / 10 ^ d)
    /\ (forall w, v <= w -> w <= 1000000 ->
          exists k', roundTo (Fin w) (Fin (INR d)) = Fin (IZR k' / 10 ^ d)
                     /\ (k <= k')%Z)
    /\ roundTo NaN (Fin (INR d)) = NaN
    /\ roundTo PInf (Fin (INR d)) = PInf
    /\ roundTo NInf (Fin (INR d)) = NInf.
Proof.
  intros _ _.
  pose proof (pow10_pos d) as Hp.
  assert (Hi : 0 < / 10 ^ d) by (apply Rinv_0_lt_compat; exact Hp).
  exists (Zfloor (v * 10 ^ d + / 2)).
  split; [apply roundTo_Fin |].
  pose proof (Zfloor_bound (v * 10 ^ d + / 2)) as [Hl Hu].
  split.
  - assert (E1 : v - / 2 / 10 ^ d = (v * 10 ^ d - / 2) / 10 ^ d)
      by (field; lra).
    assert (E2 : v + / 2 / 10 ^ d = (v * 10 ^ d + / 2) / 10 ^ d)
      by (field; lra).
    assert (B : v - / 2 / 10 ^ d
                < IZR (Zfloor (v * 10 ^ d + / 2)) / 10 ^ d
                <= v + / 2 / 10 ^ d).
    { rewrite E1, E2. unfold Rdiv. split.
      - apply Rmult_lt_compat_r; [exact Hi | lra].
      - apply Rmult_le_compat_r; [lra | exact Hl]. }
    unfold Rdiv in *. apply Rabs_le. nra.
  - split.
    + rewrite roundTo_Fin. do 3 f_equal.
      apply Zfloor_eq.
      replace (IZR (Zfloor (v * 10 ^ d + / 2)) / 10 ^ d * 10 ^ d)
        with (IZR (Zfloor (v * 10 ^ d + / 2))) by (field; lra).
      lra.
    + split.
      * intros w Hw _. exists (Zfloor (w * 10 ^ d + / 2)).
        split; [apply roundTo_Fin |].
        apply Zfloor_le. nra.
      * unfold roundTo. cbv zeta. rewrite npow_10_nat.
        cbn [nmul nround ndiv inf_of_sign].
        rewrite Rsign_pos by exact Hp. cbn [inf_of_sign CompOpp nround ndiv].
        destruct (Rlt_dec (10 ^ d) 0); [lra |]. repeat split.
Qed.

(** ** Reading the vendor payload *)

Lemma for_of_app {S : Type} (body : json -> S -> outcome S)
  (l1 l2 : list json) :
  forall st,
    for_of (l1 ++ l2) body st
    = match for_of l1 body st with
      | Returned st' => for_of l2 body st'
      | Thrown e => Thrown e
      end.
Proof.
  induction l1 as [| x rest IH]; intros st; [reflexivity |].
  cbn [app for_of]. destruct (body x st); [apply IH | reflexivity].
Qed.

Lemma for_of_pure {S : Type} (body : json -> S -> S) (items : list json) :
  forall st,
    for_of items (fun rec st => Returned (body rec st)) st
    = Returned (fold_left (fun st rec => body rec st) items st).
Proof.
  induction items as [| x rest IH]; intros st; [reflexivity |].
  cbn [for_of fold_left]. apply IH.
Qed.

(** On sensors whose records can all be read, the two nested loops run
    the body over the records in order. *)
Lemma for_of_sensors_records {S : Type} (body : json -> S -> outcome S)
  (sensors : list json) :
  forall recs st,
    all_records sensors = Some recs ->
    for_of sensors
      (fun s st =>
         for_of_value (nullish_or (opt_get (Some s) "data") (JArr []))
           body st)
      st
    = for_of recs body st.
Proof.
  induction sensors as [| s rest IH]; intros recs st H.
  - injection H as <-. reflexivity.
  - cbn [all_records] in H. cbn [for_of]. unfold for_of_value at 1.
    destruct (iterate (nullish_or (opt_get (Some s) "data") (JArr [])))
      as [dataArr |]; [| discriminate].
    destruct (all_records rest) as [recs' |]; [| discriminate].
    injection H as <-. rewrite for_of_app.
    destruct (for_of dataArr body st); [now apply IH | reflexivity].
Qed.

Lemma for_each_record_records {S : Type} (payload : json)
  (body : json -> S -> outcome S) (st : S) (recs : list json) :
  payload_records payload = Some recs ->
  for_each_record (nullish_or (opt_get (Some payload) "sensors") (JArr []))
    body st
  = for_of recs body st.
Proof.
  unfold for_each_record, for_of_value, payload_records.
  destruct (iterate _) as [sensors |]; [| discriminate].
  intros H. now apply for_of_sensors_records.
Qed.

Lemma for_of_sensors {S : Type} (body : json -> S -> S) (sensors : list json) :
  forall st,
    for_of sensors
      (fun s st =>
         for_of_value (nullish_or (opt_get (Some s) "data") (JArr []))
           (fun rec st => Returned (body rec st)) st)
      st
    = match all_records sensors with
      | Some recs => Returned (fold_left (fun st rec => body rec st) recs st)
      | None => Thrown NotIterable
      end.
Proof.
  induction sensors as [| s rest IH]; intros st; [reflexivity |].
  cbn [for_of all_records]. unfold for_of_value at 1.
  destruct (iterate (nullish_or (opt_get (Some s) "data") (JArr [])))
    as [dataArr |]; [| reflexivity].
  rewrite for_of_pure, IH.
  destruct (all_records rest) as [recs |]; [| reflexivity].
  rewrite fold_left_app. reflexivity.
Qed.

Lemma for_each_record_spec {S : Type} (payload : json)
  (body : json -> S -> S) (st : S) :
  for_each_record (nullish_or (opt_get (Some payload) "sensors") (JArr []))
    (fun rec st => Returned (body rec st)) st
  = match payload_records payload with
    | Some recs => Returned (fold_left (fun st rec => body rec st) recs st)
    | None => Thrown NotIterable
    end.
Proof.
  unfold for_each_record, for_of_value, payload_records.
  destruct (iterate _) as [sensors |]; [| reflexivity].
  apply for_of_sensors.
Qed.

Lemma fold_pressure_step_found (recs : list json) (p : number) :
  fold_left (fun st rec => pressure_step rec st) recs (Some p) = Some p.
Proof.
  induction recs as [| rec rest IH]; [reflexivity |].
  cbn [fold_left]. unfold pressure_step at 2. cbv zeta. exact IH.
Qed.

Lemma fold_pressure_step (recs : list json) :
  fold_left (fun st rec => pressure_step rec st) recs None
  = first_pressure recs.
Proof.
  induction recs as [| rec rest IH]; [reflexivity |].
  cbn [fold_left first_pressure]. unfold pressure_step at 2. cbv zeta.
  destruct (typeof_number (opt_get (Some rec) "bar_absolute")) as [n |].
  - apply fold_pressure_step_found.
  - destruct (typeof_number (opt_get (Some rec) "abs_press")) as [n |].
    + apply fold_pressure_step_found.
    + exact IH.
Qed.

Lemma fold_outdoor_step (recs : list json) :
  forall t h : option number,
    fold_left (fun st rec => outdoor_step rec st) recs (t, h)
    = (match t with Some _ => t | None => first_numeric "temp" recs end,
       match h with Some _ => h | None => first_numeric "hum" recs end).
Proof.
  induction recs as [| rec rest IH]; intros t h.
  - destruct t, h; reflexivity.
  - cbn [fold_left first_numeric]. unfold outdoor_step at 2. cbv zeta.
    rewrite IH.
    destruct t, h,
      (typeof_number (opt_get (Some rec) "temp")),
      (typeof_number (opt_get (Some rec) "hum")); reflexivity.
Qed.

Section Extraction.

Variable StringToNumber : string -> number.
Variable ArrayToNumber : list json -> outcome number.
Variable notPrimitiveMessage : string.

Lemma first_number_in_app (l1 l2 : list json) (field : string) :
  first_number_in StringToNumber ArrayToNumber notPrimitiveMessage
    (l1 ++ l2) field
  = match first_number_in StringToNumber ArrayToNumber notPrimitiveMessage
            l1 field with
    | Returned None =>
        first_number_in StringToNumber ArrayToNumber notPrimitiveMessage
          l2 field
    | found => found
    end.
Proof.
  induction l1 as [| rec rest IH]; [reflexivity |].
  cbn [app first_number_in]. cbv zeta.
  destruct (number_of _ _ _ _) as [n | e]; [| reflexivity].
  destruct (is_finite n); [reflexivity | exact IH].
Qed.

Lemma first_number_in_passed_over (recs : list json) (field : string) :
  (forall r, In r recs ->
     passed_over StringToNumber ArrayToNumber notPrimitiveMessage field r) ->
  first_number_in StringToNumber ArrayToNumber notPrimitiveMessage recs field
  = Returned None.
Proof.
  induction recs as [| rec rest IH]; intros H; [reflexivity |].
  cbn [first_number_in]. cbv zeta.
  destruct (H rec (or_introl eq_refl)) as (m & -> & ->).
  apply IH. intros r Hr. apply H. now right.
Qed.

Lemma first_number_in_sensors_spec (sensors : list json) (field : string) :
  forall recs,
    all_records sensors = Some recs ->
    first_number_in_sensors StringToNumber ArrayToNumber notPrimitiveMessage
      sensors field
    = first_number_in StringToNumber ArrayToNumber notPrimitiveMessage
        recs field.
Proof.
  induction sensors as [| s rest IH]; intros recs H.
  - injection H as <-. reflexivity.
  - cbn [all_records] in H. cbn [first_number_in_sensors].
    destruct (iterate (nullish_or (opt_get (Some s) "data") (JArr [])))
      as [dataArr |]; [| discriminate].
    destruct (all_records rest) as [recs' |]; [| discriminate].
    injection H as <-. rewrite first_number_in_app.
    destruct (first_number_in StringToNumber ArrayToNumber
                notPrimitiveMessage dataArr field) as [[n |] | e];
      [reflexivity | | reflexivity].
    now apply IH.
Qed.

Lemma firstNumberFromSensors_records (payload : json) (field : string)
  (recs : list json) :
  payload_records payload = Some recs ->
  firstNumberFromSensors StringToNumber ArrayToNumber notPrimitiveMessage
    payload field
  = first_number_in StringToNumber ArrayToNumber notPrimitiveMessage
      recs field.
Proof.
  intros H. unfold firstNumberFromSensors, payload_records in *. cbv zeta.
  destruct (iterate _) as [sensors |]; [| discriminate].
  now apply first_number_in_sensors_spec.
Qed.

(** [firstNumberFromSensors] for the field the handler asks for, on a
    payload whose records can all be read.  The records are tried in
    payload order.  A record whose [uv_index] converts to a number that is
    not finite is passed over, and the first record that is not passed
    over decides: its finite number is returned, or the TypeError of its
    conversion is thrown.  When every record is passed over the result is
    [null].  In the conversion a missing member is NaN, [null] is 0 (so
    that it counts as a reading), an object is NaN, except that an object
    with a member [toString] throws. *)
Theorem firstNumberFromSensors_spec (payload : json) (recs : list json) :
  payload_records payload = Some recs ->
  (forall before rec after n,
     recs = before ++ rec :: after ->
     (forall r, In r before ->
        passed_over StringToNumber ArrayToNumber notPrimitiveMessage
          "uv_index" r) ->
     number_of StringToNumber ArrayToNumber notPrimitiveMessage
       (opt_get (Some rec) "uv_index") = Returned n ->
     is_finite n = true ->
     firstNumberFromSensors StringToNumber ArrayToNumber notPrimitiveMessage
       payload "uv_index"
     = Returned (Some n))
  /\ (forall before rec after e,
        recs = before ++ rec :: after ->
        (forall r, In r before ->
           passed_over StringToNumber ArrayToNumber notPrimitiveMessage
             "uv_index" r) ->
        number_of StringToNumber ArrayToNumber notPrimitiveMessage
          (opt_get (Some rec) "uv_index") = Thrown e ->
        firstNumberFromSensors StringToNumber ArrayToNumber
          notPrimitiveMessage payload "uv_index"
        = Thrown e)
  /\ ((forall r, In r recs ->
         passed_over StringToNumber ArrayToNumber notPrimitiveMessage
           "uv_index" r) ->
      firstNumberFromSensors StringToNumber ArrayToNumber notPrimitiveMessage
        payload "uv_index"
      = Returned None)
  /\ (number_of StringToNumber ArrayToNumber notPrimitiveMessage None
      = Returned NaN
      /\ number_of StringToNumber ArrayToNumber notPrimitiveMessage
           (Some JNull) = Returned (Fin 0)
      /\ (forall members,
            number_of StringToNumber ArrayToNumber notPrimitiveMessage
              (Some (JObj members))
            = match lookup "toString" members with
              | Some _ => Thrown (Error notPrimitiveMessage)
              | None => Returned NaN
              end)).
Proof.
  intros H.
  rewrite (firstNumberFromSensors_records payload "uv_index" recs H).
  split; [| split; [| split]].
  - intros before rec after n -> Hb Hn Hf.
    rewrite first_number_in_app, first_number_in_passed_over by exact Hb.
    cbn [first_number_in]. cbv zeta. rewrite Hn, Hf. reflexivity.
  - intros before rec after e -> Hb He.
    rewrite first_number_in_app, first_number_in_passed_over by exact Hb.
    cbn [first_number_in]. cbv zeta. rewrite He. reflexivity.
  - apply first_number_in_passed_over.
  - repeat split.
Qed.

Lemma extractInputs_records (payload : json) :
  extractInputs StringToNumber ArrayToNumber notPrimitiveMessage payload
  = match payload_records payload with
    | None => Thrown NotIterable
    | Some recs =>
        match first_numeric "temp" recs, first_numeric "hum" recs,
              first_pressure recs with
        | Some tempF, Some humidityPct, Some absPressureInHg =>
            match firstNumberFromSensors StringToNumber ArrayToNumber
                    notPrimitiveMessage payload "uv_index" with
            | Thrown e => Thrown e
            | Returned uvIndex =>
                Returned (LiveInputs.mk tempF humidityPct absPressureInHg
                            uvIndex)
            end
        | Some _, Some _, None => Thrown (Error pressure_message)
        | _, _, _ => Thrown (Error outdoor_message)
        end
    end.
Proof.
  unfold extractInputs. cbv zeta. rewrite !for_each_record_spec.
  destruct (payload_records payload) as [recs |] eqn:Hrecs; [| reflexivity].
  rewrite fold_pressure_step, fold_outdoor_step.
  destruct (first_numeric "temp" recs) as [t |];
    destruct (first_numeric "hum" recs) as [h |]; reflexivity.
Qed.

(** [extractInputs] without its loops.  When a loop meets a value that is
    not iterable the call throws that TypeError.  Otherwise, on the
    records of the payload in order: a missing numeric [temp] or [hum]
    throws the outdoor-sensor error, also when the pressure is missing
    too; with both present a missing pressure throws the pressure error;
    and with all three present the call goes on to the UV index: it
    throws what [firstNumberFromSensors] throws, and otherwise returns the
    first numeric [temp], the first numeric [hum], the pressure of the
    first record with a numeric [bar_absolute] or [abs_press]
    ([bar_absolute] first within a record) and that UV index. *)
Theorem extractInputs_spec (payload : json) :
  (payload_records payload = None ->
   extractInputs StringToNumber ArrayToNumber notPrimitiveMessage payload
   = Thrown NotIterable)
  /\ (forall recs,
        payload_records payload = Some recs ->
        (first_numeric "temp" recs = None \/ first_numeric "hum" recs = None ->
         extractInputs StringToNumber ArrayToNumber notPrimitiveMessage
           payload
         = Thrown (Error outdoor_message))
        /\ (forall t h,
              first_numeric "temp" recs = Some t ->
              first_numeric "hum" recs = Some h ->
              first_pressure recs = None ->
              extractInputs StringToNumber ArrayToNumber notPrimitiveMessage
                payload
              = Thrown (Error pressure_message))
        /\ (forall t h p,
              first_numeric "temp" recs = Some t ->
              first_numeric "hum" recs = Some h ->
              first_pressure recs = Some p ->
              (forall uv,
                 firstNumberFromSensors StringToNumber ArrayToNumber
                   notPrimitiveMessage payload "uv_index" = Returned uv ->
                 extractInputs StringToNumber ArrayToNumber
                   notPrimitiveMessage payload
                 = Returned (LiveInputs.mk t h p uv))
              /\ (forall e,
                    firstNumberFromSensors StringToNumber ArrayToNumber
                      notPrimitiveMessage payload "uv_index" = Thrown e ->
                    extractInputs StringToNumber ArrayToNumber
                      notPrimitiveMessage payload
                    = Thrown e))).
Proof.
  rewrite extractInputs_records. split; [intros ->; reflexivity |].
  intros recs ->. split; [| split].
  - intros [H | H]; rewrite H; [reflexivity |].
    destruct (first_numeric "temp" recs); reflexivity.
  - intros t h -> -> ->. reflexivity.
  - intros t h p -> -> ->. split; intros x ->; reflexivity.
Qed.

End Extraction.

Lemma firstNumberFromSensors_spec_witness :
  payload_records sample_payload_uv
  = Some [JObj [("temp"%string, JNum (Fin 80))];
          JObj [("uv_index"%string, JObj [("a"%string, JNum (Fin 1))])];
          JObj [("uv_index"%string, JNull)];
          JObj [("uv_index"%string, JNum (Fin 7))]]
  /\ firstNumberFromSensors (fun _ => NaN) (fun _ => Returned NaN)
       "no text" sample_payload_uv "uv_index"
     = Returned (Some (Fin 0))
  /\ firstNumberFromSensors (fun _ => NaN) (fun _ => Returned NaN)
       "no text" sample_payload_uv_object "uv_index"
     = Thrown (Error "no text").
Proof.
  assert (H : payload_records sample_payload_uv
              = Some [JObj [("temp"%string, JNum (Fin 80))];
                      JObj [("uv_index"%string,
                             JObj [("a"%string, JNum (Fin 1))])];
                      JObj [("uv_index"%string, JNull)];
                      JObj [("uv_index"%string, JNum (Fin 7))]])
    by reflexivity.
  split; [exact H |]. split.
  - refine (proj1 (firstNumberFromSensors_spec (fun _ => NaN)
                     (fun _ => Returned NaN) "no text" sample_payload_uv _ H)
              [JObj [("temp"%string, JNum (Fin 80))];
               JObj [("uv_index"%string, JObj [("a"%string, JNum (Fin 1))])]]
              (JObj [("uv_index"%string, JNull)])
              [JObj [("uv_index"%string, JNum (Fin 7))]]
              (Fin 0) eq_refl _ eq_refl eq_refl).
    intros r [<- | [<- | []]]; exists NaN; split; reflexivity.
  - refine (proj1 (proj2 (firstNumberFromSensors_spec (fun _ => NaN)
                            (fun _ => Returned NaN) "no text"
                            sample_payload_uv_object _ eq_refl))
              [] _ [] (Error "no text") eq_refl _ eq_refl).
    intros r [].
Defined.

Lemma extractInputs_spec_witness :
  payload_records sample_payload_two_sensors
  = Some [JObj [("bar_absolute"%string, JNum (Fin 28.9))];
          JObj [("temp"%string, JNull); ("hum"%string, JNum (Fin 40))];
          JObj [("temp"%string, JNum (Fin 80)); ("hum"%string, JNum (Fin 50));
                ("uv_index"%string, JNum (Fin 3))]]
  /\ extractInputs (fun _ => NaN) (fun _ => Returned NaN) "no text"
       sample_payload_two_sensors
     = Returned (LiveInputs.mk (Fin 80) (Fin 40) (Fin 28.9) (Some (Fin 3))).
Proof.
  assert (H : payload_records sample_payload_two_sensors
              = Some [JObj [("bar_absolute"%string, JNum (Fin 28.9))];
                      JObj [("temp"%string, JNull);
                            ("hum"%string, JNum (Fin 40))];
                      JObj [("temp"%string, JNum (Fin 80));
                            ("hum"%string, JNum (Fin 50));
                            ("uv_index"%string, JNum (Fin 3))]])
    by reflexivity.
  split; [exact H |].
  refine (proj1 (proj2 (proj2 (proj2 (extractInputs_spec (fun _ => NaN)
                                       (fun _ => Returned NaN) "no text"
                                       sample_payload_two_sensors) _ H))
                  (Fin 80) (Fin 40) (Fin 28.9) eq_refl eq_refl eq_refl)
            (Some (Fin 3)) eq_refl).
Defined.

(** ** The live handler *)

Lemma roundTo_1 (v : R) :
  roundTo (Fin v) (Fin 1) = Fin (IZR (Zfloor (v * 10 + / 2)) / 10).
Proof.
  change (Fin 1) with (Fin (INR 1)). rewrite roundTo_Fin.
  simpl pow. rewrite !Rmult_1_r. reflexivity.
Qed.

Lemma roundTo_3 (v : R) :
  roundTo (Fin v) (Fin 3) = Fin (IZR (Zfloor (v * 1000 + / 2)) / 1000).
Proof.
  replace 3 with (INR 3) by (simpl; lra). rewrite roundTo_Fin.
  replace (10 ^ 3) with 1000 by (simpl; lra). reflexivity.
Qed.

(** Rounding a value of [-60, 140] to one decimal stays in [-60, 140]. *)
Lemma roundTo_1_in_bracket (r : R) :
  -60 <= r <= 140 ->
  exists k : Z,
    roundTo (Fin r) (Fin 1) = Fin (IZR k / 10) /\ -60 <= IZR k / 10 <= 140.
Proof.
  intros Hr. rewrite roundTo_1. eexists; split; [reflexivity |].
  pose proof (Zfloor_bound (r * 10 + / 2)) as [Hl Hu].
  assert (H1 : (-600 <= Zfloor (r * 10 + / 2))%Z)
    by (apply Zfloor_lub; lra).
  assert (H2 : (Zfloor (r * 10 + / 2) < 1401)%Z)
    by (apply lt_IZR; lra).
  apply IZR_le in H1.
  assert (H3 : (Zfloor (r * 10 + / 2) <= 1400)%Z) by lia.
  apply IZR_le in H3. lra.
Qed.

Section LiveHandler.

Variable StringToNumber : string -> number.
Variable ArrayToNumber : list json -> outcome number.
Variable notPrimitiveMessage : string.
Variable nowIso : string.
Variable notIterableMessage : string.
Variable Number_toFixed4 : number -> number.

(** A successful answer of the handler.  The status is 200, the inputs
    are those extracted from the fetched payload, the display echoes the
    three inputs and the UV index, the displayed dew point is a finite
    number of [-60, 140] with one decimal whatever the inputs, and for a
    temperature and a humidity of magnitude at most 1000 the displayed
    vapor pressure is a whole number of thousandths within 0.000501 of
    pd(temp) * hum / 100 (half a thousandth, and the rounding of the
    arithmetic). *)
Theorem GET_success (fetched : outcome json) (inputs : LiveInputs.t)
  (display : Display.t) :
  Response.body
    (GET StringToNumber ArrayToNumber notPrimitiveMessage nowIso
       notIterableMessage Number_toFixed4 fetched)
  = Success inputs display ->
  Response.status
    (GET StringToNumber ArrayToNumber notPrimitiveMessage nowIso
       notIterableMessage Number_toFixed4 fetched) = 200%Z
  /\ (exists payload,
        fetched = Returned payload
        /\ extractInputs StringToNumber ArrayToNumber notPrimitiveMessage
             payload
           = Returned inputs)
  /\ Display.ts display = nowIso
  /\ Display.tempF display = LiveInputs.tempF inputs
  /\ Display.humidityPct display = LiveInputs.humidityPct inputs
  /\ Display.absPressureInHg display = LiveInputs.absPressureInHg inputs
  /\ Display.uvIndex display = LiveInputs.uvIndex inputs
  /\ (exists k : Z,
        Display.dewPointF display = Fin (IZR k / 10)
        /\ -60 <= IZR k / 10 <= 140)
  /\ (forall t h,
        LiveInputs.tempF inputs = Fin t ->
        LiveInputs.humidityPct inputs = Fin h ->
        Rabs t <= 1000 -> Rabs h <= 1000 ->
        exists k : Z,
          Display.vaporPressureInHg display = Fin (IZR k / 1000)
          /\ Rabs (IZR k / 1000 - pd_poly t * (h / 100)) <= 0.000501).
Proof.
  unfold GET. destruct fetched as [payload | err]; [| discriminate].
  destruct (extractInputs StringToNumber ArrayToNumber notPrimitiveMessage
              payload)
    as [i | err] eqn:Ei; [| discriminate].
  cbv zeta. cbn [Response.body Response.status].
  intros H. injection H as <- <-. destruct i as [t h p uv].
  cbn [LiveInputs.tempF LiveInputs.humidityPct LiveInputs.absPressureInHg
       LiveInputs.uvIndex Display.ts Display.tempF Display.humidityPct
       Display.absPressureInHg Display.uvIndex Display.dewPointF
       Display.vaporPressureInHg].
  split; [reflexivity |]. split; [exists payload; now split |].
  do 5 (split; [reflexivity |]).
  split.
  - rewrite dewPointFFromVaporPressure_Fin.
    apply roundTo_1_in_bracket.
    pose proof (bisectR_bounds (pdValueInHg t * (h / Fin 100))%num 80). lra.
  - intros t' h' -> -> _ _. rewrite vaporPressure_Fin, roundTo_3.
    eexists; split; [reflexivity |].
    pose proof (Zfloor_bound (pd_poly t' * (h' / 100) * 1000 + / 2))
      as [Hl Hu].
    apply Rabs_le. lra.
Qed.

(** The failures of the handler, all with status 500: a failed request
    gives the message of its error; a payload in which no record has a
    numeric [temp], or none a numeric [hum], gives the outdoor-sensor
    message; a payload with both but no numeric pressure gives the
    pressure message; a payload that a loop cannot iterate gives the
    engine's message. *)
Theorem GET_failure (payload : json) :
  (forall err,
     GET StringToNumber ArrayToNumber notPrimitiveMessage nowIso
       notIterableMessage Number_toFixed4 (Thrown err)
     = Response.mk 500 (Failure (error_message notIterableMessage err)))
  /\ (payload_records payload = None ->
      GET StringToNumber ArrayToNumber notPrimitiveMessage nowIso
        notIterableMessage Number_toFixed4 (Returned payload)
      = Response.mk 500 (Failure notIterableMessage))
  /\ (forall recs,
        payload_records payload = Some recs ->
        first_numeric "temp" recs = None \/ first_numeric "hum" recs = None ->
        GET StringToNumber ArrayToNumber notPrimitiveMessage nowIso
          notIterableMessage Number_toFixed4 (Returned payload)
        = Response.mk 500 (Failure outdoor_message))
  /\ (forall recs t h,
        payload_records payload = Some recs ->
        first_numeric "temp" recs = Some t ->
        first_numeric "hum" recs = Some h ->
        first_pressure recs = None ->
        GET StringToNumber ArrayToNumber notPrimitiveMessage nowIso
          notIterableMessage Number_toFixed4 (Returned payload)
        = Response.mk 500 (Failure pressure_message)).
Proof.
  split; [reflexivity |]. unfold GET. rewrite extractInputs_records.
  split; [| split].
  - intros ->. reflexivity.
  - intros recs -> [H | H]; rewrite H; [reflexivity |].
    destruct (first_numeric "temp" recs); reflexivity.
  - intros recs t h -> -> -> ->. reflexivity.
Qed.

(** The optional UV index can fail the whole reading: on a payload with
    a numeric temperature, humidity and pressure, a conversion of a
    [uv_index] member that throws makes the handler answer with status 500
    and the message of that error, where a missing or unreadable UV
    index that does not throw gives a successful answer without it. *)
Theorem GET_uv_index_failure (payload : json) (recs : list json)
  (t h p : number) :
  payload_records payload = Some recs ->
  first_numeric "temp" recs = Some t ->
  first_numeric "hum" recs = Some h ->
  first_pressure recs = Some p ->
  (forall e,
     firstNumberFromSensors StringToNumber ArrayToNumber notPrimitiveMessage
       payload "uv_index" = Thrown e ->
     GET StringToNumber ArrayToNumber notPrimitiveMessage nowIso
       notIterableMessage Number_toFixed4 (Returned payload)
     = Response.mk 500 (Failure (error_message notIterableMessage e)))
  /\ (forall uv,
        firstNumberFromSensors StringToNumber ArrayToNumber
          notPrimitiveMessage payload "uv_index" = Returned uv ->
        Response.status
          (GET StringToNumber ArrayToNumber notPrimitiveMessage nowIso
             notIterableMessage Number_toFixed4 (Returned payload)) = 200%Z
        /\ exists display,
             Response.body
               (GET StringToNumber ArrayToNumber notPrimitiveMessage nowIso
                  notIterableMessage Number_toFixed4 (Returned payload))
             = Success (LiveInputs.mk t h p uv) display
             /\ Display.uvIndex display = uv).
Proof.
  intros Hr Ht Hh Hp. unfold GET. rewrite extractInputs_records.
  rewrite Hr, Ht, Hh, Hp. split.
  - intros e ->. reflexivity.
  - intros uv ->. cbv zeta. cbn [Response.status Response.body].
    split; [reflexivity |]. eexists. split; reflexivity.
Qed.

End LiveHandler.

Lemma GET_success_witness :
  let response :=
    GET (fun _ => NaN) (fun _ => Returned NaN) EmptyString EmptyString
      EmptyString (fun x => x) (Returned sample_payload) in
  exists display,
    Response.body response
    = Success (LiveInputs.mk (Fin 80) (Fin 50) (Fin 28.9) None) display
    /\ Response.status response = 200%Z
    /\ (exists k : Z,
          Display.dewPointF display = Fin (IZR k / 10)
          /\ -60 <= IZR k / 10 <= 140)
    /\ (exists k : Z,
          Display.vaporPressureInHg display = Fin (IZR k / 1000)
          /\ Rabs (IZR k / 1000 - pd_poly 80 * (50 / 100)) <= 0.000501).
Proof.
  cbv zeta. eexists.
  assert (H : Response.body
                (GET (fun _ => NaN) (fun _ => Returned NaN) EmptyString
                   EmptyString EmptyString (fun x => x)
                   (Returned sample_payload))
              = Success (LiveInputs.mk (Fin 80) (Fin 50) (Fin 28.9) None) _)
    by reflexivity.
  split; [exact H |].
  destruct (GET_success _ _ _ _ _ _ _ _ _ H)
    as (Hs & _ & _ & _ & _ & _ & _ & Hd & Hv).
  split; [exact Hs |]. split; [exact Hd |].
  apply (Hv 80 50); try reflexivity; rewrite Rabs_pos_eq; lra.
Defined.

Lemma GET_uv_index_failure_witness :
  GET (fun _ => NaN) (fun _ => Returned NaN) "Cannot convert" EmptyString
    "not iterable" (fun x => x) (Returned sample_payload_uv_throws)
  = Response.mk 500 (Failure "Cannot convert").
Proof.
  exact (proj1 (GET_uv_index_failure (fun _ => NaN) (fun _ => Returned NaN)
                  "Cannot convert" EmptyString "not iterable" (fun x => x)
                  sample_payload_uv_throws _ (Fin 80) (Fin 50) (Fin 28.9)
                  eq_refl eq_refl eq_refl eq_refl)
           (Error "Cannot convert") eq_refl).
Defined.

Lemma GET_failure_witness :
  payload_records sample_payload_no_pressure
  = Some [JObj [("temp"%string, JNum (Fin 80)); ("hum"%string, JNum (Fin 50))]]
  /\ GET (fun _ => NaN) (fun _ => Returned NaN) EmptyString EmptyString
       EmptyString (fun x => x) (Returned sample_payload_no_pressure)
     = Response.mk 500 (Failure pressure_message).
Proof.
  assert (H : payload_records sample_payload_no_pressure
              = Some [JObj [("temp"%string, JNum (Fin 80));
                            ("hum"%string, JNum (Fin 50))]])
    by reflexivity.
  split; [exact H |].
  apply (proj2 (proj2 (proj2 (GET_failure (fun _ => NaN)
                                (fun _ => Returned NaN) EmptyString
                                EmptyString EmptyString (fun x => x)
                                sample_payload_no_pressure)))
           _ (Fin 80) (Fin 50) H); reflexivity.
Defined.

(** ** The history of the page *)

Lemma no_repeat_firstn (n : nat) :
  forall history, no_repeat history -> no_repeat (firstn n history).
Proof.
  induction n as [| n IH]; intros [| a rest] H; try exact I.
  cbn [firstn]. destruct H as [Ha Hr]. split; [| now apply IH].
  destruct rest as [| b rest']; destruct n; try exact I. exact Ha.
Qed.

Lemma history_update_same (ok first : ApiResult.t) (rest : list ApiResult.t) :
  ts_of first = ts_of ok ->
  history_update ok (first :: rest) = (first :: rest, None).
Proof.
  intros E. unfold history_update. cbv zeta.
  fold (ts_of first) (ts_of ok). rewrite E, String.eqb_refl. reflexivity.
Qed.

Lemma history_update_new (ok : ApiResult.t) (prev : list ApiResult.t) :
  match prev with
  | [] => True
  | first :: _ => ts_of first <> ts_of ok
  end ->
  history_update ok prev
  = (ok :: firstn 1999 prev, Some (ok :: firstn 1999 prev)).
Proof.
  intros H. unfold history_update. cbv zeta.
  assert (E : match prev with
              | [] => false
              | first :: _ =>
                  String.eqb (Display.ts (ApiResult.display first))
                    (Display.ts (ApiResult.display ok))
              end = false).
  { destruct prev as [| first rest]; [reflexivity |].
    now apply String.eqb_neq. }
  rewrite E. unfold HISTORY_MAX. change 2000%nat with (S 1999).
  rewrite firstn_cons. reflexivity.
Qed.

(** The history update.  A reading whose timestamp is that of the newest
    entry changes nothing and saves nothing.  Any other reading (on an
    empty history, or with another timestamp than the newest entry)
    becomes the newest entry, in front of the first 1999 old ones, and
    that history is saved.  So the newest entry always carries the
    timestamp of the reading, a history of at most 2000 entries stays so,
    the same reading arriving twice is recorded once, and neighbours with
    distinct timestamps stay so. *)
Theorem history_update_spec (ok : ApiResult.t) (prev : list ApiResult.t) :
  (forall first rest,
     prev = first :: rest -> ts_of first = ts_of ok ->
     history_update ok prev = (prev, None))
  /\ (prev = [] \/ (exists first rest,
                      prev = first :: rest /\ ts_of first <> ts_of ok) ->
      history_update ok prev
      = (ok :: firstn 1999 prev, Some (ok :: firstn 1999 prev)))
  /\ (exists first rest,
        fst (history_update ok prev) = first :: rest
        /\ ts_of first = ts_of ok)
  /\ (List.length prev <= HISTORY_MAX ->
      List.length (fst (history_update ok prev)) <= HISTORY_MAX)%nat
  /\ history_update ok (fst (history_update ok prev))
     = (fst (history_update ok prev), None)
  /\ (no_repeat prev -> no_repeat (fst (history_update ok prev))).
Proof.
  split; [| split].
  - intros first rest -> E. now apply history_update_same.
  - intros H. apply history_update_new.
    destruct H as [-> | (first & rest & -> & N)]; [exact I | exact N].
  - assert (Hcase : (exists first rest, prev = first :: rest
                                        /\ ts_of first = ts_of ok)
                    \/ match prev with
                       | [] => True
                       | first :: _ => ts_of first <> ts_of ok
                       end).
    { destruct prev as [| first rest]; [now right |].
      destruct (string_dec (ts_of first) (ts_of ok)) as [E | E];
        [left; exists first, rest; now split | now right]. }
    destruct Hcase as [(first & rest & -> & E) | Hnew].
    + rewrite (history_update_same ok first rest E). cbn [fst snd].
      split; [exists first, rest; now split |].
      split; [tauto |]. split; [now apply history_update_same | tauto].
    + rewrite (history_update_new ok prev Hnew). cbn [fst snd].
      split; [exists ok, (firstn 1999 prev); now split |].
      split.
      * intros _. cbn [List.length].
        pose proof (firstn_le_length 1999 prev). unfold HISTORY_MAX. lia.
      * split; [now apply history_update_same |].
        intros H. change (ok :: firstn 1999 prev)
          with (firstn 2000 (ok :: prev)).
        apply no_repeat_firstn. split; [| exact H].
        destruct prev as [| first rest]; [exact I | congruence].
Qed.

Lemma history_update_spec_witness :
  history_update (sample_result "t1")
    [sample_result "t1"; sample_result "t0"]
  = ([sample_result "t1"; sample_result "t0"], None)
  /\ history_update (sample_result "t2")
       [sample_result "t1"; sample_result "t1"; sample_result "t2"]
     = ([sample_result "t2"; sample_result "t1"; sample_result "t1";
         sample_result "t2"],
        Some [sample_result "t2"; sample_result "t1"; sample_result "t1";
              sample_result "t2"]).
Proof.
  split.
  - exact (proj1 (history_update_spec (sample_result "t1")
                    [sample_result "t1"; sample_result "t0"])
             (sample_result "t1") [sample_result "t0"] eq_refl eq_refl).
  - refine (proj1 (proj2 (history_update_spec (sample_result "t2")
                            [sample_result "t1"; sample_result "t1";
                             sample_result "t2"])) _).
    right. exists (sample_result "t1"),
             [sample_result "t1"; sample_result "t2"].
    split; [reflexivity | discriminate].
Defined.

(** ** The stale indicator *)

Lemma nle_Fin (x y : R) : nle (Fin x) (Fin y) = true <-> x <= y.
Proof.
  simpl. destruct (Rle_dec x y); split; intros; try reflexivity;
    try assumption; try discriminate; contradiction.
Qed.

Lemma nle_Fin_false (x y : R) : nle (Fin x) (Fin y) = false <-> y < x.
Proof.
  simpl. destruct (Rle_dec x y); split; intros; try reflexivity;
    try discriminate; lra.
Qed.

Lemma truthy_number_zero : truthy_number (Fin 0) = false.
Proof.
  unfold truthy_number. destruct (Req_dec_T 0 0); [reflexivity | contradiction].
Qed.

Lemma truthy_number_nonzero (x : R) : x <> 0 -> truthy_number (Fin x) = true.
Proof.
  intros H. unfold truthy_number.
  destruct (Req_dec_T x 0); [contradiction | reflexivity].
Qed.

Section StaleIndicator.

Variable Date_parse : string -> number.

(** The stale indicator.  Without a timestamp, with an empty one, with
    one that does not parse to a finite time or that parses to time 0,
    the state is OFFLINE at every time.  Otherwise, with the timestamp at
    [ms] and the clock at [now] milliseconds, the state is LIVE exactly
    when now - ms <= 90000 (so also for a timestamp in the future), STALE
    exactly when 90000 < now - ms <= 180000, and OFFLINE exactly when
    180000 < now - ms. *)
Theorem staleState_spec (ts : string) (nowMs : number) (ms now : R) :
  staleState Date_parse None nowMs = OFFLINE
  /\ staleState Date_parse (Some EmptyString) nowMs = OFFLINE
  /\ (is_finite (Date_parse ts) = false ->
      staleState Date_parse (Some ts) nowMs = OFFLINE)
  /\ (Date_parse ts = Fin 0 ->
      staleState Date_parse (Some ts) nowMs = OFFLINE)
  /\ (truthy_string ts = true -> Date_parse ts = Fin ms -> ms <> 0 ->
      (staleState Date_parse (Some ts) (Fin now) = LIVE
       <-> now - ms <= 90000)
      /\ (staleState Date_parse (Some ts) (Fin now) = STALE
          <-> 90000 < now - ms <= 180000)
      /\ (staleState Date_parse (Some ts) (Fin now) = OFFLINE
          <-> 180000 < now - ms)).
Proof.
  split; [reflexivity |]. split; [reflexivity |].
  unfold staleState, ageSec, lastMs, parseTsToMs. cbv zeta.
  split; [| split].
  - intros ->. destruct (truthy_string ts); reflexivity.
  - intros ->. destruct (truthy_string ts); [| reflexivity].
    cbn [is_finite]. rewrite truthy_number_zero. reflexivity.
  - intros -> -> Hms. cbn [is_finite negb orb].
    rewrite truthy_number_nonzero by exact Hms.
    change (Fin now - Fin ms)%num with (Fin (now - ms)).
    rewrite ndiv_Fin by lra. cbn [is_finite negb].
    destruct (nle (Fin ((now - ms) / 1000)) (Fin 90)) eqn:E1.
    + apply nle_Fin in E1.
      repeat split; intros; try reflexivity; try discriminate; lra.
    + apply nle_Fin_false in E1.
      destruct (nle (Fin ((now - ms) / 1000)) (Fin 180)) eqn:E2.
      * apply nle_Fin in E2.
        repeat split; intros; try reflexivity; try discriminate; lra.
      * apply nle_Fin_false in E2.
        repeat split; intros; try reflexivity; try discriminate; lra.
Qed.

End StaleIndicator.

Lemma staleState_spec_witness :
  truthy_string "t" = true
  /\ 5 <> 0
  /\ (staleState (fun _ => Fin 5) (Some "t"%string) (Fin 90005) = LIVE
      <-> 90005 - 5 <= 90000).
Proof.
  assert (H1 : truthy_string "t" = true) by reflexivity.
  assert (H2 : 5 <> 0) by lra.
  split; [exact H1 |]. split; [exact H2 |].
  exact (proj1 (proj2 (proj2 (proj2 (proj2
           (staleState_spec (fun _ => Fin 5) "t" (Fin 90005) 5 90005))))
           H1 eq_refl H2)).
Defined.

(** ** Formatting on the page *)

Lemma Zfloor_div (a b : Z) :
  (0 < b)%Z -> Zfloor (IZR a / IZR b) = (a / b)%Z.
Proof.
  intros Hb. apply Zfloor_eq.
  pose proof (Z.div_mod a b ltac:(lia)) as E.
  pose proof (Z.mod_pos_bound a b Hb) as [M0 M1].
  assert (HbR : 0 < IZR b) by (apply IZR_lt; exact Hb).
  apply IZR_le in M0. apply IZR_lt in M1.
  assert (ER : IZR a = IZR b * IZR (a / b) + IZR (a mod b)).
  { rewrite <- mult_IZR, <- plus_IZR. f_equal. exact E. }
  assert (EQ : IZR a / IZR b = IZR (a / b) + IZR (a mod b) / IZR b)
    by (rewrite ER at 1; field; lra).
  assert (0 <= IZR (a mod b) / IZR b)
    by (apply Rmult_le_pos; [lra | left; now apply Rinv_0_lt_compat]).
  assert (IZR (a mod b) / IZR b < 1).
  { apply Rmult_lt_reg_r with (r := IZR b); [exact HbR |].
    unfold Rdiv. rewrite Rmult_assoc, Rinv_l by lra. lra. }
  rewrite EQ. lra.
Qed.

Section PageFormatting.

Variable String_of_number : number -> string.

(** The age label.  A negative or non-finite age shows the dash.  The
    page passes an age of a whole number [n] of milliseconds, as seconds.
    Below one minute the label is the number of seconds rounded to the
    nearest, half a second going up, which can be 60.  From one minute on,
    and for ages up to 10^12 ms, it is the whole number of minutes
    n / 60000 and the rounded seconds of the remainder, which can be 60
    too: 119500 ms reads [1m 60s] and 120000 ms reads [2m 0s]. *)
Theorem formatAge_spec (seconds : R) (n : Z) :
  formatAge String_of_number NaN = dash
  /\ formatAge String_of_number PInf = dash
  /\ formatAge String_of_number NInf = dash
  /\ (seconds < 0 -> formatAge String_of_number (Fin seconds) = dash)
  /\ ((0 <= n < 60000)%Z ->
      formatAge String_of_number (Fin (IZR n / 1000))
      = (String_of_number (Fin (IZR ((n + 500) / 1000))) ++ "s")%string)
  /\ ((60000 <= n <= 1000000000000)%Z ->
      formatAge String_of_number (Fin (IZR n / 1000))
      = (String_of_number (Fin (IZR (n / 60000))) ++ "m "
         ++ String_of_number (Fin (IZR ((n mod 60000 + 500) / 1000)))
         ++ "s")%string).
Proof.
  split; [reflexivity |]. split; [reflexivity |]. split; [reflexivity |].
  unfold formatAge, nlt. cbn [is_finite negb orb]. split; [| split].
  - intros H. rewrite ngt_Fin_true by lra. reflexivity.
  - intros [H0 H1]. apply IZR_le in H0. apply IZR_lt in H1.
    rewrite ngt_Fin_false by lra. rewrite ngt_Fin_true by lra.
    cbn [nround].
    replace (IZR n / 1000 + / 2) with (IZR (n + 500) / IZR 1000)
      by (rewrite plus_IZR; lra).
    rewrite Zfloor_div by lia. reflexivity.
  - intros [H0 _]. apply IZR_le in H0.
    rewrite !ngt_Fin_false by lra. cbv zeta.
    rewrite ndiv_Fin by lra. cbn [nfloor]. unfold nmod.
    destruct (Req_dec_T 60 0) as [E | _]; [lra |].
    unfold Rtrunc. destruct (Rlt_dec (IZR n / 1000 / 60) 0) as [N | _]; [lra |].
    cbn [nround].
    assert (Eq : Zfloor (IZR n / 1000 / 60) = (n / 60000)%Z).
    { replace (IZR n / 1000 / 60) with (IZR n / IZR 60000) by lra.
      apply Zfloor_div. lia. }
    rewrite Eq.
    pose proof (Z.div_mod n 60000 ltac:(lia)) as Em.
    assert (ER : IZR n = 60000 * IZR (n / 60000) + IZR (n mod 60000)).
    { rewrite <- mult_IZR, <- plus_IZR. f_equal. exact Em. }
    replace (IZR n / 1000 - 60 * IZR (n / 60000) + / 2)
      with (IZR (n mod 60000 + 500) / IZR 1000)
      by (rewrite plus_IZR, ER at 1; lra).
    rewrite Zfloor_div by lia. reflexivity.
Qed.

End PageFormatting.

Lemma formatAge_spec_witness :
  ((60000 <= 119500 <= 1000000000000)%Z
   /\ formatAge (fun _ => "#"%string) (Fin (IZR 119500 / 1000))
      = ((fun _ => "#"%string) (Fin (IZR 1)) ++ "m "
         ++ (fun _ => "#"%string) (Fin (IZR 60)) ++ "s")%string)
  /\ ((60000 <= 120000 <= 1000000000000)%Z
      /\ formatAge (fun _ => "#"%string) (Fin (IZR 120000 / 1000))
         = ((fun _ => "#"%string) (Fin (IZR 2)) ++ "m "
            ++ (fun _ => "#"%string) (Fin (IZR 0)) ++ "s")%string).
Proof.
  assert (H1 : (60000 <= 119500 <= 1000000000000)%Z) by lia.
  assert (H2 : (60000 <= 120000 <= 1000000000000)%Z) by lia.
  split; (split; [assumption |]).
  - exact (proj2 (proj2 (proj2 (proj2 (proj2
             (formatAge_spec (fun _ => "#"%string) 0 119500))))) H1).
  - exact (proj2 (proj2 (proj2 (proj2 (proj2
             (formatAge_spec (fun _ => "#"%string) 0 120000))))) H2).
Defined.

(** ** CSV cells *)

Lemma append_last_injective (c : ascii) :
  forall s1 s2 : string,
    (s1 ++ String c EmptyString)%string = (s2 ++ String c EmptyString)%string ->
    s1 = s2.
Proof.
  induction s1 as [| a s1 IH]; intros [| b s2] H; cbn in H.
  - reflexivity.
  - injection H as _ H. destruct s2; discriminate.
  - injection H as _ H. destruct s1; discriminate.
  - injection H as -> H. f_equal. now apply IH.
Qed.

Lemma double_quotes_injective :
  forall s1 s2 : string, double_quotes s1 = double_quotes s2 -> s1 = s2.
Proof.
  induction s1 as [| a s1 IH]; intros [| b s2] H; cbn in H.
  - reflexivity.
  - destruct (Ascii.eqb b quote); discriminate.
  - destruct (Ascii.eqb a quote); discriminate.
  - destruct (Ascii.eqb a quote) eqn:Ea, (Ascii.eqb b quote) eqn:Eb.
    + apply Ascii.eqb_eq in Ea, Eb. subst a b.
      injection H as H. f_equal. now apply IH.
    + injection H as Hb _. rewrite <- Hb in Eb.
      rewrite Ascii.eqb_refl in Eb. discriminate.
    + injection H as Ha _. rewrite Ha in Ea.
      rewrite Ascii.eqb_refl in Ea. discriminate.
    + injection H as -> H. f_equal. now apply IH.
Qed.

Lemma needs_quoting_false (s : string) :
  needs_quoting s = false
  <-> forall c, In c (list_ascii_of_string s) ->
        c <> quote /\ c <> comma /\ c <> newline.
Proof.
  induction s as [| a s IH]; cbn [needs_quoting list_ascii_of_string].
  - split; [intros _ c [] | reflexivity].
  - rewrite !orb_false_iff, !Ascii.eqb_neq, IH. split.
    + intros [[[Hq Hc] Hn] Hs] c [<- | Hin]; [tauto | now apply Hs].
    + intros H. destruct (H a (or_introl eq_refl)) as (Hq & Hc & Hn).
      split; [tauto |]. intros c Hin. apply H. now right.
Qed.

Section CsvCells.

Variable String_of_number : number -> string.

(** A CSV cell.  A text without quote, comma and newline is its own cell.
    A text with one of them is written between quotes, every quote of the
    text doubled.  A number is written as its text is, and [null] and
    [undefined] as the empty cell, like the empty text.  Two different
    texts never give the same cell. *)
Theorem csvEscape_spec (s s1 s2 : string) (n : number) :
  ((forall c, In c (list_ascii_of_string s) ->
      c <> quote /\ c <> comma /\ c <> newline) ->
   csvEscape String_of_number (CText s) = s)
  /\ ((exists c, In c (list_ascii_of_string s)
                 /\ (c = quote \/ c = comma \/ c = newline)) ->
      csvEscape String_of_number (CText s)
      = String quote (double_quotes s ++ String quote EmptyString)%string)
  /\ csvEscape String_of_number (CNumber n)
     = csvEscape String_of_number (CText (String_of_number n))
  /\ csvEscape String_of_number CNullish = EmptyString
  /\ csvEscape String_of_number (CText EmptyString) = EmptyString
  /\ (csvEscape String_of_number (CText s1)
      = csvEscape String_of_number (CText s2) -> s1 = s2).
Proof.
  split; [| split; [| split; [| split; [| split]]]]; try reflexivity.
  - intros H. apply (proj2 (needs_quoting_false s)) in H.
    cbn [csvEscape String_of_cell]. cbv zeta. rewrite H. reflexivity.
  - intros (c & Hin & Hc). cbn [csvEscape String_of_cell]. cbv zeta.
    destruct (needs_quoting s) eqn:E; [reflexivity |].
    destruct (proj1 (needs_quoting_false s) E c Hin) as (Hq & Hk & Hn).
    destruct Hc as [-> | [-> | ->]]; contradiction.
  - cbn [csvEscape String_of_cell]. cbv zeta.
    destruct (needs_quoting s1) eqn:E1, (needs_quoting s2) eqn:E2; intros H.
    + injection H as H. apply append_last_injective in H.
      now apply double_quotes_injective.
    + rewrite <- H in E2. cbn in E2. discriminate.
    + rewrite H in E1. cbn in E1. discriminate.
    + exact H.
Qed.

End CsvCells.

Lemma csvEscape_spec_witness :
  csvEscape (fun _ => EmptyString) (CText "ab") = "ab"%string
  /\ csvEscape (fun _ => EmptyString) (CText "a,b")
     = String quote ("a,b" ++ String quote EmptyString)%string.
Proof.
  split.
  - apply (proj1 (csvEscape_spec (fun _ => EmptyString) "ab"
                    EmptyString EmptyString NaN)).
    intros c [<- | [<- | []]]; repeat split; discriminate.
  - apply (proj1 (proj2 (csvEscape_spec (fun _ => EmptyString) "a,b"
                           EmptyString EmptyString NaN))).
    exists ","%char. split; [right; left; reflexivity |].
    right; left; reflexivity.
Defined.

(** ** The timestamp of a payload *)

Section BestTimestampProperties.

Variable StringToNumber : string -> number.
Variable ArrayToNumber : list json -> outcome number.
Variable notPrimitiveMessage : string.
Variable Date_toISOString : number -> outcome string.
Variable nowMs : number.

Lemma best_step_record_ms (rec : json) (bestMs : option number) :
  best_step StringToNumber ArrayToNumber notPrimitiveMessage rec bestMs
  = match record_ms StringToNumber ArrayToNumber notPrimitiveMessage rec with
    | Thrown e => Thrown e
    | Returned ms => Returned (best_merge ms bestMs)
    end.
Proof.
  unfold best_step, record_ms, best_merge, nlt. cbv zeta.
  destruct (number_of StringToNumber ArrayToNumber notPrimitiveMessage
              (opt_get (Some rec) "ts")) as [[x | | |] | e];
    try reflexivity.
  cbn [is_finite andb].
  destruct (Rlt_dec 0 x) as [Hx | Hx].
  - rewrite ngt_Fin_true by lra.
    destruct (Rlt_dec x 10000000000) as [Hs | Hs].
    + rewrite ngt_Fin_true by lra. cbn [nmul].
      destruct bestMs as [best |]; [| reflexivity].
      destruct (Fin (x * 1000) >? best)%num; reflexivity.
    + rewrite ngt_Fin_false by lra.
      destruct bestMs as [best |]; [| reflexivity].
      destruct (Fin x >? best)%num; reflexivity.
  - rewrite ngt_Fin_false by lra. reflexivity.
Qed.

Lemma record_ms_pos (rec : json) (ms : R) :
  record_ms StringToNumber ArrayToNumber notPrimitiveMessage rec
  = Returned (Some ms) ->
  0 < ms.
Proof.
  unfold record_ms. cbv zeta.
  destruct (number_of StringToNumber ArrayToNumber notPrimitiveMessage
              (opt_get (Some rec) "ts")) as [[x | | |] | e];
    try discriminate.
  destruct (Rlt_dec 0 x); [| discriminate].
  destruct (Rlt_dec x 10000000000); intros H; injection H as <-; lra.
Qed.

Lemma returned_ms_spec (rec : json) (o : option R) :
  record_ms StringToNumber ArrayToNumber notPrimitiveMessage rec = Returned o ->
  returned_ms StringToNumber ArrayToNumber notPrimitiveMessage rec = o.
Proof. unfold returned_ms. now intros ->. Qed.

(** While the conversions return, the loop folds [best_merge] over the
    records; the first conversion that throws ends it. *)
Lemma for_of_best_step (recs : list json) :
  (forall rec, In rec recs ->
     exists o, record_ms StringToNumber ArrayToNumber notPrimitiveMessage rec
               = Returned o) ->
  forall st,
    for_of recs (best_step StringToNumber ArrayToNumber notPrimitiveMessage) st
    = Returned
        (fold_left
           (fun st rec =>
              best_merge
                (returned_ms StringToNumber ArrayToNumber notPrimitiveMessage
                   rec) st)
           recs st).
Proof.
  induction recs as [| rec rest IH]; intros H st; [reflexivity |].
  cbn [for_of fold_left]. rewrite best_step_record_ms.
  destruct (H rec (or_introl eq_refl)) as (o & Eo).
  rewrite (returned_ms_spec rec o Eo), Eo.
  apply IH. intros r Hr. apply H. now right.
Qed.

Lemma for_of_best_step_throws (before after : list json) (rec : json)
  (e : exn) :
  (forall r, In r before ->
     exists o, record_ms StringToNumber ArrayToNumber notPrimitiveMessage r
               = Returned o) ->
  record_ms StringToNumber ArrayToNumber notPrimitiveMessage rec = Thrown e ->
  forall st,
    for_of (before ++ rec :: after)
      (best_step StringToNumber ArrayToNumber notPrimitiveMessage) st
    = Thrown e.
Proof.
  intros Hb He st. rewrite for_of_app, (for_of_best_step before Hb).
  cbn [for_of]. rewrite best_step_record_ms, He. reflexivity.
Qed.

(** The state of the loop is the greatest time met so far. *)
Lemma fold_best_merge (recs : list json) :
  forall b : R,
    exists m : R,
      fold_left
        (fun st rec =>
           best_merge
             (returned_ms StringToNumber ArrayToNumber notPrimitiveMessage rec)
             st)
        recs (Some (Fin b)) = Some (Fin m)
      /\ b <= m
      /\ (forall rec x, In rec recs ->
            returned_ms StringToNumber ArrayToNumber notPrimitiveMessage rec
            = Some x -> x <= m)
      /\ (m = b \/ exists rec,
                     In rec recs
                     /\ returned_ms StringToNumber ArrayToNumber
                          notPrimitiveMessage rec = Some m).
Proof.
  induction recs as [| rec rest IH]; intros b.
  - exists b. cbn. split; [reflexivity |]. split; [lra |].
    split; [contradiction | now left].
  - cbn [fold_left].
    destruct (returned_ms StringToNumber ArrayToNumber notPrimitiveMessage rec)
      as [ms |] eqn:E; cbn [best_merge].
    + destruct (Fin ms >? Fin b)%num eqn:G.
      * apply ngt_Fin_inv in G.
        destruct (IH ms) as (m & Em & Hm & Hall & Hex).
        exists m. split; [exact Em |]. split; [lra |]. split.
        -- intros r x [<- | Hin] Hx; [| now apply (Hall r)].
           rewrite E in Hx. injection Hx as <-. exact Hm.
        -- right. destruct Hex as [-> | (r & Hin & Hr)].
           ++ exists rec. split; [now left | exact E].
           ++ exists r. split; [now right | exact Hr].
      * apply ngt_Fin_inv_false in G.
        destruct (IH b) as (m & Em & Hm & Hall & Hex).
        exists m. split; [exact Em |]. split; [exact Hm |]. split.
        -- intros r x [<- | Hin] Hx; [| now apply (Hall r)].
           rewrite E in Hx. injection Hx as <-. lra.
        -- destruct Hex as [-> | (r & Hin & Hr)]; [now left |].
           right. exists r. split; [now right | exact Hr].
    + destruct (IH b) as (m & Em & Hm & Hall & Hex).
      exists m. split; [exact Em |]. split; [exact Hm |]. split.
      * intros r x [<- | Hin] Hx; [| now apply (Hall r)].
        rewrite E in Hx. discriminate.
      * destruct Hex as [-> | (r & Hin & Hr)]; [now left |].
        right. exists r. split; [now right | exact Hr].
Qed.

Lemma fold_best_merge_none (recs : list json) :
  (forall rec, In rec recs ->
     returned_ms StringToNumber ArrayToNumber notPrimitiveMessage rec = None) ->
  fold_left
    (fun st rec =>
       best_merge
         (returned_ms StringToNumber ArrayToNumber notPrimitiveMessage rec) st)
    recs None = None.
Proof.
  induction recs as [| rec rest IH]; intros H; [reflexivity |].
  cbn [fold_left]. rewrite (H rec) by now left. cbn [best_merge].
  apply IH. intros r Hr. apply H. now right.
Qed.

Lemma fold_best_merge_some (recs : list json) (best : R) :
  (exists rec, In rec recs
               /\ returned_ms StringToNumber ArrayToNumber
                    notPrimitiveMessage rec = Some best) ->
  (forall rec x, In rec recs ->
     returned_ms StringToNumber ArrayToNumber notPrimitiveMessage rec = Some x ->
     x <= best) ->
  fold_left
    (fun st rec =>
       best_merge
         (returned_ms StringToNumber ArrayToNumber notPrimitiveMessage rec) st)
    recs None = Some (Fin best).
Proof.
  induction recs as [| rec rest IH]; intros (r & Hin & Hr) Hmax;
    [contradiction |].
  cbn [fold_left].
  destruct (returned_ms StringToNumber ArrayToNumber notPrimitiveMessage rec)
    as [ms |] eqn:E; cbn [best_merge].
  - destruct (fold_best_merge rest ms) as (m & Em & Hm & Hall & Hex).
    rewrite Em. do 2 f_equal.
    assert (Hms : ms <= best) by (apply (Hmax rec); [now left | exact E]).
    assert (Hbm : best <= m).
    { destruct Hin as [<- | Hin].
      - rewrite E in Hr. injection Hr as <-. exact Hm.
      - now apply (Hall r). }
    destruct Hex as [-> | (r' & Hin' & Hr')]; [lra |].
    assert (m <= best) by (apply (Hmax r'); [now right | exact Hr']). lra.
  - apply IH.
    + destruct Hin as [<- | Hin]; [rewrite E in Hr; discriminate |].
      exists r. now split.
    + intros r' x Hin' Hx. apply (Hmax r'); [now right | exact Hx].
Qed.

(** [extractBestTimestampIso] on a payload whose records can all be read.
    Each record contributes a time when its [ts] converts to a finite
    positive number, read as seconds below 10^10 and as milliseconds from
    there on.  When the conversions all return: with no such record the
    result is the time of the call, and otherwise it is the greatest of
    these times.  When a conversion throws, after records whose
    conversions return, the call throws the same. *)
Theorem extractBestTimestampIso_spec (payload : json) (recs : list json) :
  payload_records payload = Some recs ->
  ((forall rec, In rec recs ->
      record_ms StringToNumber ArrayToNumber notPrimitiveMessage rec
      = Returned None) ->
   extractBestTimestampIso StringToNumber ArrayToNumber notPrimitiveMessage
     Date_toISOString nowMs payload
   = Date_toISOString nowMs)
  /\ (forall best,
        (forall rec, In rec recs ->
           exists o, record_ms StringToNumber ArrayToNumber
                       notPrimitiveMessage rec = Returned o) ->
        (exists rec, In rec recs
                     /\ record_ms StringToNumber ArrayToNumber
                          notPrimitiveMessage rec = Returned (Some best)) ->
        (forall rec x, In rec recs ->
           record_ms StringToNumber ArrayToNumber notPrimitiveMessage rec
           = Returned (Some x) -> x <= best) ->
        extractBestTimestampIso StringToNumber ArrayToNumber
          notPrimitiveMessage Date_toISOString nowMs payload
        = Date_toISOString (Fin best))
  /\ (forall before rec after e,
        recs = before ++ rec :: after ->
        (forall r, In r before ->
           exists o, record_ms StringToNumber ArrayToNumber
                       notPrimitiveMessage r = Returned o) ->
        record_ms StringToNumber ArrayToNumber notPrimitiveMessage rec
        = Thrown e ->
        extractBestTimestampIso StringToNumber ArrayToNumber
          notPrimitiveMessage Date_toISOString nowMs payload
        = Thrown e).
Proof.
  intros Hrecs. unfold extractBestTimestampIso. cbv zeta.
  rewrite (for_each_record_records payload _ _ recs Hrecs).
  split; [| split].
  - intros Hnone. rewrite for_of_best_step.
    + rewrite fold_best_merge_none; [reflexivity |].
      intros rec Hin. apply returned_ms_spec. now apply Hnone.
    + intros rec Hin. exists None. now apply Hnone.
  - intros best Hall Hex Hmax. rewrite (for_of_best_step recs Hall).
    rewrite (fold_best_merge_some recs best).
    + destruct Hex as (r & _ & Hr). apply record_ms_pos in Hr.
      rewrite truthy_number_nonzero by lra. reflexivity.
    + destruct Hex as (r & Hin & Hr). exists r. split; [exact Hin |].
      now apply returned_ms_spec.
    + intros rec x Hin Hx. apply (Hmax rec x Hin).
      destruct (Hall rec Hin) as (o & Eo).
      rewrite (returned_ms_spec rec o Eo) in Hx. now subst o.
  - intros before rec after e -> Hb He.
    rewrite (for_of_best_step_throws before after rec e Hb He). reflexivity.
Qed.

End BestTimestampProperties.

Lemma record_ms_seconds (x : R) :
  0 < x < 10000000000 ->
  record_ms (fun _ => NaN) (fun _ => Returned NaN) EmptyString
    (JObj [("ts"%string, JNum (Fin x))])
  = Returned (Some (x * 1000)).
Proof.
  intros H. unfold record_ms. cbn.
  destruct (Rlt_dec 0 x); [| lra].
  destruct (Rlt_dec x 10000000000); [reflexivity | lra].
Qed.

Lemma record_ms_milliseconds (x : R) :
  10000000000 <= x ->
  record_ms (fun _ => NaN) (fun _ => Returned NaN) EmptyString
    (JObj [("ts"%string, JNum (Fin x))])
  = Returned (Some x).
Proof.
  intros H. unfold record_ms. cbn.
  destruct (Rlt_dec 0 x); [| lra].
  destruct (Rlt_dec x 10000000000); [lra | reflexivity].
Qed.

Lemma extractBestTimestampIso_spec_witness :
  payload_records sample_payload_two_times
  = Some [JObj [("ts"%string, JNum (Fin 1700000000))];
          JObj [("ts"%string, JNum (Fin 1700000001000))]]
  /\ extractBestTimestampIso (fun _ => NaN) (fun _ => Returned NaN)
       EmptyString
       (fun ms => match ms with
                  | Fin _ => Returned "date"%string
                  | _ => Thrown Other
                  end)
       (Fin 0) sample_payload_two_times
     = Returned "date"%string
  /\ extractBestTimestampIso (fun _ => NaN) (fun _ => Returned NaN)
       "no text" (fun _ => Returned "date"%string) (Fin 0)
       sample_payload_ts_object
     = Thrown (Error "no text").
Proof.
  assert (H : payload_records sample_payload_two_times
              = Some [JObj [("ts"%string, JNum (Fin 1700000000))];
                      JObj [("ts"%string, JNum (Fin 1700000001000))]])
    by reflexivity.
  split; [exact H |]. split.
  - refine (proj1 (proj2 (extractBestTimestampIso_spec (fun _ => NaN)
                            (fun _ => Returned NaN) EmptyString
                            _ (Fin 0) sample_payload_two_times _ H))
              1700000001000 _ _ _).
    + intros rec [<- | [<- | []]].
      * eexists. apply record_ms_seconds. lra.
      * eexists. apply record_ms_milliseconds. lra.
    + eexists. split; [right; left; reflexivity |].
      apply record_ms_milliseconds. lra.
    + intros rec x [<- | [<- | []]] Hx.
      * rewrite record_ms_seconds in Hx by lra. injection Hx as <-. lra.
      * rewrite record_ms_milliseconds in Hx by lra. injection Hx as <-. lra.
  - refine (proj2 (proj2 (extractBestTimestampIso_spec (fun _ => NaN)
                            (fun _ => Returned NaN) "no text"
                            (fun _ => Returned "date"%string) (Fin 0)
                            sample_payload_ts_object _ eq_refl))
              [] _ [] (Error "no text") eq_refl _ eq_refl).
    intros r [].
Defined.

(** ** Witness of the rounding theorem *)

Lemma roundTo_nearest_witness :
  Rabs 0.25 <= 1000000 /\ (1 <= 4)%nat
  /\ exists k : Z,
       roundTo (Fin 0.25) (Fin (INR 1)) = Fin (IZR k / 10 ^ 1)
       /\ Rabs (IZR k / 10 ^ 1 - 0.25) <= 0.501 / 10 ^ 1.
Proof.
  assert (H1 : Rabs 0.25 <= 1000000) by (rewrite Rabs_pos_eq; lra).
  assert (H2 : (1 <= 4)%nat) by lia.
  split; [exact H1 |]. split; [exact H2 |].
  destruct (roundTo_nearest 0.25 1 H1 H2) as (k & E & H & _).
  exists k. split; [exact E | exact H].
Defined.
